(** * Calculation-type classifiers of emmet-core (VASP and CP2K) and jsanitize

    A shallow embedding of

      - [emmet/core/vasp/calc_types.py]   (run_type, task_type, calc_type and
        the three enumerations built at import time),
      - [emmet/core/cp2k/calc_types/utils.py] (run_type, task_type, calc_type),
      - [emmet/core/utils.py]             (jsanitize),

    followed by the properties of the specification that concern them.

    Python data is modelled as follows.  Strings are [string]s of ASCII
    characters; [strip], [split] and [upper] have Python's behaviour on code
    points below 128.  A dict is an association list in insertion order,
    read with [dict_get] (first binding of the key) and written with
    [dict_set] (update in place, or append): the order of [.items()] decides
    which rule wins, so it is kept.  A call that can raise returns a
    [result].  The rule table [run_types.yaml] is not part of the sources
    and is a parameter of every definition that reads it. *)

From Stdlib Require Import Bool List ZArith Lia Ascii String.
Import ListNotations.
Local Open Scope list_scope.
Local Open Scope string_scope.

Set Warnings "-register-all".

(* ===================================================================== *)
(** ** Python base layer *)
(* ===================================================================== *)

Module Py.

(** Exceptions that the modelled code can raise.  [Exception_ cause] is the
    plain [Exception] that task_type raises from its [except] clause; it
    carries the exception it wraps. *)
Inductive exn : Type :=
| KeyError
| ValueError
| TypeError
| AttributeError
| IndexError
| Exception_ (cause : exn).

Inductive result (A : Type) : Type :=
| Ok (a : A)
| Raise (e : exn).
Arguments Ok {A} a.
Arguments Raise {A} e.

Definition bind {A B : Type} (r : result A) (k : A -> result B) : result B :=
  match r with
  | Ok a => k a
  | Raise e => Raise e
  end.

Notation "x <- e ;; k" := (bind e (fun x => k))
  (at level 61, e at next level, right associativity).

(** A list comprehension [[f(x) for x in xs]] whose body can raise. *)
Section Comprehension.

Variables A B : Type.
Variable f : A -> result B.

Fixpoint comprehension (xs : list A) : result (list B) :=
  match xs with
  | [] => Ok []
  | x :: rest =>
      y <- f x ;;
      rest' <- comprehension rest ;;
      Ok (y :: rest')
  end.

End Comprehension.
Arguments comprehension {A B} f xs.

(** [try: body except Exception as e: raise Exception(...e...)]. *)
Definition try_wrap {A : Type} (body : result A) : result A :=
  match body with
  | Ok a => Ok a
  | Raise e => Raise (Exception_ e)
  end.

(** *** Strings *)

(** [str.isspace] on ASCII: TAB, LF, VT, FF, CR, FS, GS, RS, US, SPACE. *)
Definition is_space (c : ascii) : bool :=
  let n := nat_of_ascii c in
  ((9 <=? n)%nat && (n <=? 13)%nat) || ((28 <=? n)%nat && (n <=? 32)%nat).

Definition is_lower (c : ascii) : bool :=
  let n := nat_of_ascii c in (97 <=? n)%nat && (n <=? 122)%nat.

Definition upper_char (c : ascii) : ascii :=
  if is_lower c then ascii_of_nat (nat_of_ascii c - 32) else c.

(** [s.upper()] *)
Fixpoint upper (s : string) : string :=
  match s with
  | EmptyString => EmptyString
  | String c s' => String (upper_char c) (upper s')
  end.

Definition is_empty (s : string) : bool :=
  match s with
  | EmptyString => true
  | String _ _ => false
  end.

(** [s.lstrip()] *)
Fixpoint lstrip (s : string) : string :=
  match s with
  | EmptyString => EmptyString
  | String c s' => if is_space c then lstrip s' else s
  end.

(** [s.rstrip()] *)
Fixpoint rstrip (s : string) : string :=
  match s with
  | EmptyString => EmptyString
  | String c s' =>
      let r := rstrip s' in
      if is_space c && is_empty r then EmptyString else String c r
  end.

(** [s.strip()] *)
Definition strip (s : string) : string := rstrip (lstrip s).

(** [s.split()]: the maximal runs of non-whitespace characters.
    [split_go s] is the word that starts at the head of [s] (empty when [s]
    starts with whitespace) and the words after it. *)
Fixpoint split_go (s : string) : string * list string :=
  match s with
  | EmptyString => (EmptyString, [])
  | String c s' =>
      let (w, ws) := split_go s' in
      if is_space c
      then (EmptyString, if is_empty w then ws else w :: ws)
      else (String c w, ws)
  end.

Definition split (s : string) : list string :=
  let (w, ws) := split_go s in
  if is_empty w then ws else w :: ws.

(** [sep.join(parts)] *)
Definition join (sep : string) (parts : list string) : string :=
  String.concat sep parts.

(** [s.replace(a, b)] for one-character [a] and [b]. *)
Fixpoint replace_char (a b : ascii) (s : string) : string :=
  match s with
  | EmptyString => EmptyString
  | String c s' =>
      String (if Ascii.eqb c a then b else c) (replace_char a b s')
  end.

(** *** Dicts *)

Definition dict (V : Type) : Type := list (string * V).

(** [d.get(k)] as an option: the binding of [k], if any. *)
Fixpoint dict_get {V : Type} (k : string) (d : dict V) : option V :=
  match d with
  | [] => None
  | (k', v) :: d' => if String.eqb k k' then Some v else dict_get k d'
  end.

(** [d.get(k, default)] *)
Definition dict_get_default {V : Type} (k : string) (default : V) (d : dict V)
  : V :=
  match dict_get k d with
  | Some v => v
  | None => default
  end.

(** [d[k] = v]: an existing key keeps its position, a new key goes last. *)
Fixpoint dict_set {V : Type} (k : string) (v : V) (d : dict V) : dict V :=
  match d with
  | [] => [(k, v)]
  | (k', v') :: d' =>
      if String.eqb k k' then (k', v) :: d' else (k', v') :: dict_set k v d'
  end.

(** [{k: v for k, v in pairs}] *)
Definition dict_from {V : Type} (pairs : list (string * V)) : dict V :=
  fold_left (fun d kv => dict_set (fst kv) (snd kv) d) pairs [].

(** [d[k]] *)
Definition dict_item {V : Type} (k : string) (d : dict V) : result V :=
  match dict_get k d with
  | Some v => Ok v
  | None => Raise KeyError
  end.

(** *** Values *)

(** A Python float: a finite double is the dyadic rational [m * 2^e]. *)
Inductive pyfloat : Type :=
| Finite (m e : Z)
| Inf (negative : bool)
| NaN.

(** The values found in parsed calculation inputs and in the rule table. *)
Inductive value : Type :=
| VNone
| VBool (b : bool)
| VInt (n : Z)
| VFloat (x : pyfloat)
| VStr (s : string)
| VList (xs : list value)
| VDict (d : list (string * value)).

(** Numbers: [bool] is a subclass of [int], and ints compare with floats by
    their exact value. *)
Definition as_num (v : value) : option pyfloat :=
  match v with
  | VBool b => Some (Finite (Z.b2z b) 0)
  | VInt n => Some (Finite n 0)
  | VFloat x => Some x
  | _ => None
  end.

Definition dyadic_compare (m1 e1 m2 e2 : Z) : comparison :=
  let e := Z.min e1 e2 in
  Z.compare (m1 * 2 ^ (e1 - e)) (m2 * 2 ^ (e2 - e)).

(** Numeric comparison; [None] when a NaN makes the operands unordered. *)
Definition num_compare (x y : pyfloat) : option comparison :=
  match x, y with
  | NaN, _ | _, NaN => None
  | Finite m1 e1, Finite m2 e2 => Some (dyadic_compare m1 e1 m2 e2)
  | Inf n1, Inf n2 =>
      Some (if Bool.eqb n1 n2 then Eq else if n1 then Lt else Gt)
  | Inf n1, Finite _ _ => Some (if n1 then Lt else Gt)
  | Finite _ _, Inf n2 => Some (if n2 then Gt else Lt)
  end.

Definition num_eqb (x y : pyfloat) : bool :=
  match num_compare x y with
  | Some Eq => true
  | _ => false
  end.

Definition num_gtb (x y : pyfloat) : bool :=
  match num_compare x y with
  | Some Gt => true
  | _ => false
  end.

(** [v == w].  Dicts compare by content, whatever the order of insertion.
    The operands always come from two different sources (an input and the
    rule table, or an input and a literal), so the identity shortcut that
    Python takes inside containers never applies. *)
Fixpoint py_eq (v w : value) {struct v} : bool :=
  match v, w with
  | VNone, VNone => true
  | VStr a, VStr b => String.eqb a b
  | VList xs, VList ys =>
      (fix all2 (xs ys : list value) {struct xs} : bool :=
         match xs, ys with
         | [], [] => true
         | x :: xs', y :: ys' => py_eq x y && all2 xs' ys'
         | _, _ => false
         end) xs ys
  | VDict d, VDict d' =>
      Nat.eqb (List.length d) (List.length d') &&
      (fix sub (d : list (string * value)) {struct d} : bool :=
         match d with
         | [] => true
         | (k, x) :: d0 =>
             match dict_get k d' with
             | Some y => py_eq x y
             | None => false
             end && sub d0
         end) d
  | _, _ =>
      match as_num v, as_num w with
      | Some a, Some b => num_eqb a b
      | _, _ => false
      end
  end.

(** [bool(v)] *)
Definition py_truthy (v : value) : bool :=
  match v with
  | VNone => false
  | VBool b => b
  | VInt n => negb (Z.eqb n 0)
  | VFloat (Finite m _) => negb (Z.eqb m 0)
  | VFloat _ => true
  | VStr s => negb (is_empty s)
  | VList xs => match xs with [] => false | _ => true end
  | VDict d => match d with [] => false | _ => true end
  end.

(** [v > n] for an int literal [n]: only numbers are ordered against an
    int, anything else is a [TypeError]. *)
Definition py_gt_int (v : value) (n : Z) : result bool :=
  match as_num v with
  | Some x => Ok (num_gtb x (Finite n 0))
  | None => Raise TypeError
  end.

(** [o.get(k, default)]: only a dict has the method. *)
Definition py_get (o : value) (k : string) (default : value) : result value :=
  match o with
  | VDict d => Ok (dict_get_default k default d)
  | _ => Raise AttributeError
  end.

(** [a or b] *)
Definition py_or (a b : value) : value := if py_truthy a then a else b.

(** [list(o)]: the elements of a list, the characters of a string, the keys
    of a dict; nothing else in [value] is iterable. *)
Fixpoint chars (s : string) : list value :=
  match s with
  | EmptyString => []
  | String c s' => VStr (String c EmptyString) :: chars s'
  end.

Definition py_iter (o : value) : result (list value) :=
  match o with
  | VList xs => Ok xs
  | VStr s => Ok (chars s)
  | VDict d => Ok (map (fun kv => VStr (fst kv)) d)
  | _ => Raise TypeError
  end.

Definition is_none (v : value) : bool :=
  match v with
  | VNone => true
  | _ => false
  end.

(** [len(o)] *)
Definition py_len (o : value) : result Z :=
  match o with
  | VList xs => Ok (Z.of_nat (List.length xs))
  | VStr s => Ok (Z.of_nat (String.length s))
  | VDict d => Ok (Z.of_nat (List.length d))
  | _ => Raise TypeError
  end.

(** [o[0]]: the first element of a list, the first character of a string;
    a dict has string keys, so the key [0] is missing. *)
Definition py_item0 (o : value) : result value :=
  match o with
  | VList (x :: _) => Ok x
  | VStr (String c _) => Ok (VStr (String c EmptyString))
  | VList [] | VStr EmptyString => Raise IndexError
  | VDict _ => Raise KeyError
  | _ => Raise TypeError
  end.

(** *** Enumerations *)

(** A member of an [Enum] class created by the functional API. *)
Record member : Type := Member {
  cls : string;     (* the class name *)
  name : string;    (* the member name *)
  value_ : string   (* the member value, [m.value] *)
}.

(** [Enum(cls, d)]: one member per item of [d], in order.  A later item
    with the value of an earlier one is an alias of it; lookup by value
    below returns the earlier one, as Python does. *)
Definition Enum (cls : string) (d : dict string) : list member :=
  map (fun kv => Member cls (fst kv) (snd kv)) d.

(** [E(v)]: the member whose value is [v], or [ValueError]. *)
Definition enum_call (E : list member) (v : string) : result member :=
  match find (fun m => String.eqb (value_ m) v) E with
  | Some m => Ok m
  | None => Raise ValueError
  end.

(** [str(m)] and [format(m, "")] of a member of a plain [Enum]. *)
Definition str_member (m : member) : string :=
  cls m ++ "." ++ name m.

End Py.

Import Py.

(** The helper [_variant_equal], defined with the same body inside both
    [run_type] functions. *)
Definition _variant_equal (v1 v2 : value) : bool :=
  match v1, v2 with
  | VStr a, VStr b => String.eqb (upper (strip a)) (upper (strip b))
  | _, _ => py_eq v1 v2
  end.

(** [all([_variant_equal(parameters.get(param, None), value)
          for param, value in params.items()])] *)
Definition rule_matches (parameters : dict value) (params : dict value) : bool :=
  forallb
    (fun pv => _variant_equal (dict_get_default (fst pv) VNone parameters) (snd pv))
    params.

(** The rule table: functional class -> special type -> required
    parameters. *)
Definition rule_table : Type := dict (dict (dict value)).

(* ===================================================================== *)
(** ** emmet/core/vasp/calc_types.py *)
(* ===================================================================== *)

Module Vasp.

Definition _TASK_TYPES : list string :=
  [ "NSCF Line";
    "NSCF Uniform";
    "Dielectric";
    "DFPT";
    "DFPT Dielectric";
    "NMR Nuclear Shielding";
    "NMR Electric Field Gradient";
    "Static";
    "Structure Optimization";
    "Deformation" ].

(** ["_".join(rt.split()).replace("+", "_")] *)
Definition run_name (rt : string) : string :=
  replace_char "+"%char "_"%char (join "_" (split rt)).

(** ["_".join(tt.split())] *)
Definition task_name (tt : string) : string := join "_" (split tt).

Definition TaskType : list member :=
  Enum "TaskType" (dict_from (map (fun tt => (task_name tt, tt)) _TASK_TYPES)).

Section Classifier.

Variable _RUN_TYPE_DATA : rule_table.

(** [[rt for functional_class in _RUN_TYPE_DATA
         for rt in _RUN_TYPE_DATA[functional_class]]] *)
Definition special_types : list string :=
  flat_map
    (fun functional_class =>
       match dict_get functional_class _RUN_TYPE_DATA with
       | Some rules => map fst rules
       | None => []
       end)
    (map fst _RUN_TYPE_DATA).

Definition _RUN_TYPES : list string :=
  (special_types ++ map (fun rt => (rt ++ "+U")%string) special_types
     ++ ["LDA"; "LDA+U"])%list.

Definition RunType : list member :=
  Enum "RunType" (dict_from (map (fun rt => (run_name rt, rt)) _RUN_TYPES)).

Definition CalcType : list member :=
  Enum "CalcType"
    (dict_from
       (map (fun p => (run_name (fst p) ++ "_" ++ task_name (snd p),
                       fst p ++ " " ++ snd p))
          (list_prod _RUN_TYPES _TASK_TYPES))).

Definition is_hubbard (parameters : dict value) : string :=
  if py_truthy (dict_get_default "LDAU" (VBool false) parameters)
  then "+U" else "".

(** The inner loop over [_RUN_TYPE_DATA[functional_class].items()]: the
    first special type whose parameters all match. *)
Fixpoint first_rule (parameters : dict value) (rules : dict (dict value))
  : option string :=
  match rules with
  | [] => None
  | (special_type, params) :: rest =>
      if rule_matches parameters params then Some special_type
      else first_rule parameters rest
  end.

(** The outer loop over the classes, left when a rule matches. *)
Fixpoint scan_classes (parameters : dict value) (classes : list string)
  : result (option string) :=
  match classes with
  | [] => Ok None
  | functional_class :: rest =>
      rules <- dict_item functional_class _RUN_TYPE_DATA ;;
      match first_rule parameters rules with
      | Some special_type => Ok (Some special_type)
      | None => scan_classes parameters rest
      end
  end.

Definition class_order : list string := ["HF"; "VDW"; "METAGGA"; "GGA"].

Definition run_type (parameters : dict value) : result member :=
  r <- scan_classes parameters class_order ;;
  match r with
  | Some special_type => enum_call RunType (special_type ++ is_hubbard parameters)
  | None => enum_call RunType ("LDA" ++ is_hubbard parameters)
  end.

End Classifier.

(** The body of the [try] block of task_type.  [None.__ne__(x)] is [False]
    for [None] and the truthy [NotImplemented] for anything else, so the
    filter keeps the labels that are not [None]. *)
Definition num_kpt_labels (inputs : dict value) : result Z :=
  let kpts := py_or (dict_get_default "kpoints" VNone inputs) (VDict []) in
  labels <- py_get kpts "labels" VNone ;;
  let kpt_labels := py_or labels (VList []) in
  xs <- py_iter kpt_labels ;;
  Ok (Z.of_nat (List.length (filter (fun x => negb (is_none x)) xs))).

(** The list [calc_type] that task_type builds in its if/elif chain. *)
Definition task_labels (inputs : dict value) : result (list string) :=
  let incar := dict_get_default "incar" (VDict []) inputs in
  icharg <- py_get incar "ICHARG" (VInt 0) ;;
  nscf <- py_gt_int icharg 10 ;;
  if nscf then
    num <- try_wrap (num_kpt_labels inputs) ;;
    if (0 <? num)%Z then Ok ["NSCF Line"] else Ok ["NSCF Uniform"]
  else
  lepsilon <- py_get incar "LEPSILON" (VBool false) ;;
  if py_truthy lepsilon then
    ibrion <- py_get incar "IBRION" (VInt 0) ;;
    dfpt <- py_gt_int ibrion 6 ;;
    Ok ((if dfpt then ["DFPT"] else []) ++ ["Dielectric"])%list
  else
  ibrion <- py_get incar "IBRION" (VInt 0) ;;
  dfpt <- py_gt_int ibrion 6 ;;
  if dfpt then Ok ["DFPT"] else
  lchimag <- py_get incar "LCHIMAG" (VBool false) ;;
  if py_truthy lchimag then Ok ["NMR Nuclear Shielding"] else
  lefg <- py_get incar "LEFG" (VBool false) ;;
  if py_truthy lefg then Ok ["NMR Electric Field Gradient"] else
  nsw <- py_get incar "NSW" (VInt 1) ;;
  if py_eq nsw (VInt 0) then Ok ["Static"] else
  isif <- py_get incar "ISIF" (VInt 2) ;;
  relax <- (if py_eq isif (VInt 3)
            then (ibrion <- py_get incar "IBRION" (VInt 0) ;; py_gt_int ibrion 0)
            else Ok false) ;;
  if relax then Ok ["Structure Optimization"] else
  isif <- py_get incar "ISIF" (VInt 3) ;;
  deform <- (if py_eq isif (VInt 2)
             then (ibrion <- py_get incar "IBRION" (VInt 0) ;; py_gt_int ibrion 0)
             else Ok false) ;;
  if deform then Ok ["Deformation"] else
  Ok [].

Definition task_type (inputs : dict value) : result member :=
  calc_type <- task_labels inputs ;;
  enum_call TaskType (join " " calc_type).

(** [rt] and [tt] are enumeration members, and the f-string formats them
    with [str]. *)
Definition calc_type (_RUN_TYPE_DATA : rule_table)
    (inputs : dict value) (parameters : dict value) : result member :=
  rt <- run_type _RUN_TYPE_DATA parameters ;;
  tt <- task_type inputs ;;
  enum_call (CalcType _RUN_TYPE_DATA) (str_member rt ++ " " ++ str_member tt).

End Vasp.

(* ===================================================================== *)
(** ** emmet/core/cp2k/calc_types/utils.py *)
(* ===================================================================== *)

Module Cp2k.

Section Classifier.

Variable _RUN_TYPE_DATA : rule_table.

(** The three enumerations come from [emmet.core.cp2k.calc_types.enums],
    which is not part of the sources: they are parameters. *)
Variables RunType TaskType CalcType : list member.

(** The loop over [_RUN_TYPE_DATA[functional_class].items()]: does some
    special type of the class have all its parameters matching? *)
Definition class_matches (parameters : dict value) (rules : dict (dict value))
  : bool :=
  existsb (fun rule => rule_matches parameters (snd rule)) rules.

(** The loop over the keys of [_RUN_TYPE_DATA], left when a rule matches. *)
Fixpoint scan_classes (parameters : dict value) (classes : list string)
  : result (option string) :=
  match classes with
  | [] => Ok None
  | functional_class :: rest =>
      rules <- dict_item functional_class _RUN_TYPE_DATA ;;
      if class_matches parameters rules then Ok (Some functional_class)
      else scan_classes parameters rest
  end.

Definition is_hubbard (dft : dict value) : string :=
  if py_truthy (dict_get_default "dft_plus_u" VNone dft) then "+U" else "".

(** The dict [parameters] after the unwrap of a one-element FUNCTIONAL. *)
Definition build_parameters (dft : dict value) : result (dict value) :=
  let functional := dict_get_default "functional" VNone dft in
  potential <-
    py_get (dict_get_default "hfx" (VDict []) dft) "Interaction_Potential" VNone ;;
  fraction <- py_get (dict_get_default "hfx" (VDict []) dft) "FRACTION" (VInt 0) ;;
  let parameters :=
    [ ("FUNCTIONAL", functional);
      ("INTERACTION_POTENTIAL", potential);
      ("FRACTION", fraction) ] in
  n <- py_len (dict_get_default "FUNCTIONAL" VNone parameters) ;;
  if (n =? 1)%Z then
    first <- py_item0 (dict_get_default "FUNCTIONAL" VNone parameters) ;;
    Ok (dict_set "FUNCTIONAL" first parameters)
  else Ok parameters.

(** [None] is the value of a call that falls off the end of the function. *)
Definition run_type (dft : dict value) : result (option member) :=
  parameters <- build_parameters dft ;;
  r <- scan_classes parameters (map fst _RUN_TYPE_DATA) ;;
  match r with
  | Some functional_class =>
      m <- enum_call RunType (functional_class ++ is_hubbard dft) ;;
      Ok (Some m)
  | None => Ok None
  end.

Definition mem (s : string) (l : list string) : bool :=
  existsb (String.eqb s) l.

(** The list [calc_type] that task_type builds from the upper-cased run
    type. *)
Definition task_labels (u : string) : list string :=
  if mem u ["ENERGY"; "ENERGY_FORCE"; "WAVEFUNCTION_OPTIMIZATION"; "WFN_OPT"]
  then ["Static"]
  else if mem u ["GEO_OPT"; "GEOMETRY_OPTIMIZATION"; "CELL_OPT"]
  then ["Structure Optimization"]
  else if mem u ["BAND"] then ["Band"]
  else if mem u ["MOLECULAR_DYNAMICS"; "MD"] then ["Molecular Dynamics"]
  else if mem u ["MONTE_CARLO"; "MC"; "TMC"; "TAMC"] then ["Monte Carlo"]
  else if mem u ["LINEAR_RESPONSE"; "LR"] then ["Linear Response"]
  else if mem u ["VIBRATIONAL_ANALYSIS"; "NORMAL_MODES"]
  then ["Vibrational Analysis"]
  else if mem u ["ELECTRONIC_SPECTRA"; "SPECTRA"] then ["Electronic Spectra"]
  else if mem u ["NEGF"] then ["Non-equilibrium Green's Function"]
  else if mem u ["PINT"; "DRIVER"] then ["Path Integral"]
  else if mem u ["RT_PROPAGATION"; "EHRENFEST_DYN"] then ["Real-time propagation"]
  else if mem u ["BSSE"] then ["Base set superposition error"]
  else if mem u ["DEBUG"] then ["Debug analysis"]
  else if mem u ["NONE"] then ["None"]
  else [].

(** Only a string has [.upper()]. *)
Definition task_type (inputs : dict value) : result member :=
  match dict_get_default "Run_type" (VStr "") inputs with
  | VStr cp2k_run_type =>
      enum_call TaskType (join " " (task_labels (upper cp2k_run_type)))
  | _ => Raise AttributeError
  end.

(** [run_type(inputs).value]: [None] has no attribute [value]. *)
Definition value_of (r : option member) : result string :=
  match r with
  | Some m => Ok (value_ m)
  | None => Raise AttributeError
  end.

Definition calc_type (inputs : dict value) : result member :=
  r <- run_type inputs ;;
  rt <- value_of r ;;
  t <- task_type inputs ;;
  let tt := value_ t in
  enum_call CalcType (rt ++ " " ++ tt).

End Classifier.

End Cp2k.

(* ===================================================================== *)
(** ** emmet/core/utils.py: jsanitize *)
(* ===================================================================== *)

Module Utils.

(** The objects that jsanitize tells apart, one constructor per
    [isinstance] test of its body.  Dict keys are arbitrary objects.  An
    [OEnum] carries its [value]; an [OMSONable] the items of its
    [as_dict()]; an [OBaseModel] the items of its [dict()]; an [ONdarray]
    its [tolist()]; [OOther] is any other object, with the result of its
    [as_dict()] when it has that method. *)
Inductive obj : Type :=
| ONone
| OBool (b : bool)
| OInt (n : Z)
| OFloat (x : pyfloat)
| OStr (s : string)
| OBytes (s : string)
| ODatetime (iso : string)
| OObjectId (hex : string)
| OList (xs : list obj)
| OTuple (xs : list obj)
| ONdarray (tolist : list obj)
| OEnum (value : obj)
| ODict (items : list (obj * obj))
| OMSONable (as_dict : list (obj * obj))
| OBaseModel (dict_ : list (obj * obj))
| OOther (as_dict : option obj).

Section Sanitizer.

(** [o.__str__()] is defined by the class of [o], outside these sources;
    on a [str] it is the string itself. *)
Variable str_of : obj -> string.

Definition py_str (o : obj) : string :=
  match o with
  | OStr s => s
  | _ => str_of o
  end.

(** A dict built by a comprehension whose keys are the strings [k]. *)
Definition str_dict (items : list (string * obj)) : obj :=
  ODict (map (fun kv => (OStr (fst kv), snd kv)) (dict_from items)).

Fixpoint jsanitize (strict allow_bson : bool) (o : obj) {struct o}
  : result obj :=
  let each (xs : list obj) : result (list obj) :=
    comprehension (jsanitize strict allow_bson) xs in
  let items (kvs : list (obj * obj)) : result (list (string * obj)) :=
    comprehension
      (fun kv : obj * obj =>
         let (k, v) := kv in
         v' <- jsanitize strict allow_bson v ;;
         Ok (py_str k, v'))
      kvs in
  let unknown (as_dict : option obj) : result obj :=
    if negb strict then Ok (OStr (py_str o))
    else match as_dict with
         | Some d => jsanitize strict allow_bson d
         | None => Raise AttributeError
         end in
  match o with
  | ODatetime _ | OBytes _ | OObjectId _ =>
      if allow_bson then Ok o else unknown None
  | OList xs | OTuple xs => xs' <- each xs ;; Ok (OList xs')
  | ONdarray xs => xs' <- each xs ;; Ok (OList xs')
  | OEnum value => Ok value
  | ODict kvs => kvs' <- items kvs ;; Ok (str_dict kvs')
  | OMSONable kvs => kvs' <- items kvs ;; Ok (str_dict kvs')
  | OBaseModel kvs => kvs' <- items kvs ;; Ok (str_dict kvs')
  | OBool _ | OInt _ | OFloat _ => Ok o
  | ONone => Ok ONone
  | OStr s => Ok (OStr s)
  | OOther as_dict => unknown as_dict
  end.

End Sanitizer.

Definition is_str (o : obj) : bool :=
  match o with
  | OStr _ => true
  | _ => false
  end.

(** Every dict of the tree [o] has only strings as keys. *)
Fixpoint string_keyed (o : obj) : bool :=
  match o with
  | OList xs | OTuple xs => forallb string_keyed xs
  | ODict kvs =>
      forallb (fun kv => is_str (fst kv) && string_keyed (snd kv)) kvs
  | _ => true
  end.

(** No enumeration member occurs in [o] at a place that jsanitize visits. *)
Fixpoint enum_free (o : obj) : bool :=
  match o with
  | OEnum _ => false
  | OList xs | OTuple xs | ONdarray xs => forallb enum_free xs
  | ODict kvs | OMSONable kvs | OBaseModel kvs =>
      forallb (fun kv => enum_free (snd kv)) kvs
  | OOther (Some d) => enum_free d
  | _ => true
  end.

(** jsanitize keeps its promise on [o]: when [o] has no enumeration
    member, every dict of the result has only strings as keys. *)
Definition keeps_string_keys (str_of : obj -> string) (strict allow_bson : bool)
    (o : obj) : Prop :=
  forall o',
    enum_free o = true ->
    jsanitize str_of strict allow_bson o = Ok o' ->
    string_keyed o' = true.

End Utils.

(* ===================================================================== *)
(** ** Example data *)
(* ===================================================================== *)

Module Sample.

(** 0.25 and 0.2 as doubles. *)
Definition quarter : value := VFloat (Finite 1 (-2)).
Definition fifth : value := VFloat (Finite 3602879701896397 (-54)).

(** A VASP rule table in the schema of [run_types.yaml], classes in the
    alphabetical order of the file. *)
Definition vasp_table : rule_table :=
  [ ("GGA",
      [ ("GGA", [("GGA", VStr "--")]);
        ("PBE", [("GGA", VStr "PE")]) ]);
    ("HF",
      [ ("HSE06", [("AEXX", quarter); ("HFSCREEN", fifth); ("LHFCALC", VBool true)]);
        ("PBE0", [("AEXX", quarter); ("LHFCALC", VBool true)]) ]);
    ("METAGGA",
      [ ("SCAN", [("METAGGA", VStr "SCAN")]) ]);
    ("VDW",
      [ ("vdW-DF", [("GGA", VStr "RE"); ("LUSE_VDW", VBool true)]) ]) ].

(** Parameters that satisfy both the rule PBE0 of HF and the rule PBE of
    GGA. *)
Definition hybrid_parameters : dict value :=
  [ ("GGA", VStr "PE"); ("AEXX", quarter); ("LHFCALC", VBool true) ].

Definition pbe_parameters : dict value := [ ("GGA", VStr "PE") ].

(** A CP2K rule table and enumerations with the class names, the special
    type names and their [+U] forms as run types. *)
Definition cp2k_table : rule_table :=
  [ ("GGA", [ ("PBE", [("FUNCTIONAL", VStr "PBE")]) ]);
    ("HYBRID", [ ("PBE0", [("FUNCTIONAL", VStr "PBE"); ("FRACTION", quarter)]) ]) ].

Definition cp2k_RunType : list member :=
  Enum "RunType"
    [ ("GGA", "GGA"); ("HYBRID", "HYBRID"); ("PBE", "PBE"); ("PBE0", "PBE0");
      ("GGA_U", "GGA+U"); ("HYBRID_U", "HYBRID+U");
      ("PBE_U", "PBE+U"); ("PBE0_U", "PBE0+U") ].

Definition cp2k_TaskType : list member :=
  Enum "TaskType"
    [ ("Static", "Static"); ("Structure_Optimization", "Structure Optimization") ].

Definition cp2k_CalcType : list member :=
  Enum "CalcType"
    (map (fun p => (name (fst p) ++ "_" ++ name (snd p),
                    value_ (fst p) ++ " " ++ value_ (snd p)))
       (list_prod cp2k_RunType cp2k_TaskType)).

Definition cp2k_pbe : dict value :=
  [ ("functional", VList [VStr "PBE"]); ("Run_type", VStr "ENERGY") ].

(** A molecular-dynamics INCAR: no branch of the VASP task_type applies. *)
Definition md_inputs : dict value :=
  [ ("incar", VDict [("IBRION", VInt 0); ("NSW", VInt 100)]) ].

Definition static_inputs : dict value :=
  [ ("incar", VDict [("NSW", VInt 0)]) ].

(** An enumeration member whose value is the dict [{1: "x"}]. *)
Definition enum_of_dict : Utils.obj :=
  Utils.OEnum (Utils.ODict [(Utils.OInt 1, Utils.OStr "x")]).



Definition cp2k_unknown : dict value :=
  [ ("functional", VList [VStr "XYZ"]); ("Run_type", VStr "ENERGY") ].

End Sample.

(* ===================================================================== *)
(** ** Vocabulary of the specification *)
(* ===================================================================== *)

Module Spec.

(** The table declares the four classes that the VASP run_type reads. *)
Definition has_classes (table : rule_table) : bool :=
  forallb
    (fun c => match dict_get c table with Some _ => true | None => false end)
    Vasp.class_order.


(** The parameters satisfy a rule of class [c]: all the required
    parameters of some special type of [c] match. *)
Definition satisfies (table : rule_table) (parameters : dict value) (c : string)
  : bool :=
  match dict_get c table with
  | Some rules => existsb (fun rule => rule_matches parameters (snd rule)) rules
  | None => false
  end.

(** No rule of any of the four classes has all its required parameters
    matching. *)
Definition unmatched (table : rule_table) (parameters : dict value) : bool :=
  forallb (fun c => negb (satisfies table parameters c)) Vasp.class_order.



(** [x] and [y] agree on their common positions. *)
Fixpoint compatible (x y : list ascii) : bool :=
  match x, y with
  | c :: x', d :: y' => Ascii.eqb c d && compatible x' y'
  | _, _ => true
  end.

(** No string ends with both [a] and [b]: read from their last character
    backwards, [a] and [b] differ before either is exhausted. *)
Definition suffix_clash (a b : string) : bool :=
  negb (compatible (rev (list_ascii_of_string a)) (rev (list_ascii_of_string b))).

(** The last part of the string that the VASP calc_type looks up, for a
    task type [tt]: a space and [str(tt)]. *)
Definition task_suffix (tt : member) : string := " " ++ str_member tt.

(** No value of [CalcType] ends like the string that calc_type looks up. *)
Definition task_suffixes_clash : bool :=
  forallb
    (fun tt =>
       forallb (fun label => suffix_clash (task_suffix tt) (" " ++ label))
         Vasp._TASK_TYPES)
    Vasp.TaskType.

(** Two dicts hold the same value, or both none, under every key but
    [key]. *)
Definition agree_except (key : string) (d1 d2 : dict value) : Prop :=
  forall k, k <> key -> dict_get k d1 = dict_get k d2.

(** Two characters are the same up to letter case. *)
Definition same_letter (c d : ascii) : Prop :=
  c = d \/ (is_lower c = true /\ d = upper_char c)
        \/ (is_lower d = true /\ c = upper_char d).

(** Two strings are the same up to letter case. *)
Inductive ci_equal : string -> string -> Prop :=
| ci_empty : ci_equal EmptyString EmptyString
| ci_char c d s t :
    same_letter c d -> ci_equal s t -> ci_equal (String c s) (String d t).





(** The functional of the CP2K dict [dft] is the name [a], alone or as
    the only element of a list. *)
Definition functional_is (a : string) (dft : dict value) : Prop :=
  dict_get "functional" dft = Some (VStr a) \/
  dict_get "functional" dft = Some (VList [VStr a]).


End Spec.

(* ===================================================================== *)
(** ** emmet/core/utils.py: get_sg and group_structures *)
(* ===================================================================== *)

From Stdlib Require Import Permutation Sorted.

Module Grouping.

Section Grouping.

(** The structures, their space-group analysis and the structure matcher
    belong to pymatgen, outside these sources.  [get_space_group_info]
    returns the symbol and the number of the space group, or raises;
    [StructureMatcher ltol stol angle_tol] is the method [group_structures]
    of the matcher built from the three tolerances. *)
Variable Structure : Type.
Variable Tolerance : Type.
Variable get_space_group_info : Structure -> Tolerance -> result (string * Z).
Variable StructureMatcher :
  Tolerance -> Tolerance -> Tolerance -> list Structure -> list (list Structure).

(** [struc.get_space_group_info(symprec=symprec)[1]], and -1 when that
    raises. *)
Definition get_sg (struc : Structure) (symprec : Tolerance) : Z :=
  match get_space_group_info struc symprec with
  | Ok info => snd info
  | Raise _ => (-1)%Z
  end.

Section Sorting.

Variable key : Structure -> Z.

(** [sorted(l, key=key)] is stable: [x] goes before the first element
    whose key is not smaller. *)
Fixpoint insert_sorted (x : Structure) (l : list Structure) : list Structure :=
  match l with
  | [] => [x]
  | y :: l' =>
      if (key x <=? key y)%Z then x :: y :: l' else y :: insert_sorted x l'
  end.

Fixpoint sorted (l : list Structure) : list Structure :=
  match l with
  | [] => []
  | x :: l' => insert_sorted x (sorted l')
  end.

(** [groupby(l, key=key)]: the maximal runs of consecutive elements with
    one key, each with that key. *)
Fixpoint groupby (l : list Structure) : list (Z * list Structure) :=
  match l with
  | [] => []
  | x :: l' =>
      match groupby l' with
      | (k, g) :: gs =>
          if (key x =? k)%Z then (k, x :: g) :: gs
          else (key x, [x]) :: (k, g) :: gs
      | [] => [(key x, [x])]
      end
  end.

End Sorting.

(** The pregroups: one per space-group number. *)
Definition pregroups (structures : list Structure) (symprec : Tolerance)
  : list (Z * list Structure) :=
  let _get_sg := fun struc => get_sg struc symprec in
  groupby _get_sg (sorted _get_sg structures).

(** The groups that the generator yields, in order. *)
Definition group_structures (structures : list Structure)
    (ltol stol angle_tol symprec : Tolerance) : list (list Structure) :=
  let sm := StructureMatcher ltol stol angle_tol in
  flat_map (fun pregroup => sm (snd pregroup)) (pregroups structures symprec).

End Grouping.

End Grouping.

(* ===================================================================== *)
(** ** Further vocabulary and example data *)
(* ===================================================================== *)

Module Extra.

(** The run type that the dict comprehension of [RunType] keeps under the
    member name of [v]: the last one of [_RUN_TYPES] with that name. *)
Definition last_with_name (table : rule_table) (v : string) : option string :=
  find (fun rt => String.eqb (Vasp.run_name v) (Vasp.run_name rt))
    (rev (Vasp._RUN_TYPES table)).

(** Two parameter dicts agree on every parameter that a rule of the four
    classes requires. *)
Definition agree_on_tested (table : rule_table) (p1 p2 : dict value) : Prop :=
  forall c rules st ps k v,
    In c Vasp.class_order -> dict_get c table = Some rules ->
    In (st, ps) rules -> In (k, v) ps ->
    dict_get k p1 = dict_get k p2.

(** The label lists that the if/elif chain of the VASP task_type can
    build. *)
Definition vasp_label_lists : list (list string) :=
  [ ["NSCF Line"]; ["NSCF Uniform"]; ["DFPT"; "Dielectric"]; ["Dielectric"];
    ["DFPT"]; ["NMR Nuclear Shielding"]; ["NMR Electric Field Gradient"];
    ["Static"]; ["Structure Optimization"]; ["Deformation"]; [] ].

Fixpoint distinct (l : list string) : bool :=
  match l with
  | [] => true
  | x :: l' => negb (existsb (String.eqb x) l') && distinct l'
  end.

Definition key_of (kv : Utils.obj * Utils.obj) : string :=
  match fst kv with
  | Utils.OStr s => s
  | _ => EmptyString
  end.

(** A JSON-safe tree: [None], booleans, numbers, strings, lists, and dicts
    with distinct string keys; with [allow_bson], also bytes, datetimes and
    object ids. *)
Fixpoint json_safe (allow_bson : bool) (o : Utils.obj) : bool :=
  match o with
  | Utils.ONone | Utils.OBool _ | Utils.OInt _ | Utils.OFloat _
  | Utils.OStr _ => true
  | Utils.OBytes _ | Utils.ODatetime _ | Utils.OObjectId _ => allow_bson
  | Utils.OList xs => forallb (json_safe allow_bson) xs
  | Utils.ODict kvs =>
      forallb (fun kv => Utils.is_str (fst kv) && json_safe allow_bson (snd kv)) kvs
      && distinct (map key_of kvs)
  | _ => false
  end.

(** Every object that jsanitize visits in [o] is of a kind that it names:
    no object of another class, and the three bson kinds only with
    [allow_bson]. *)
Fixpoint understood (allow_bson : bool) (o : Utils.obj) : bool :=
  match o with
  | Utils.OBytes _ | Utils.ODatetime _ | Utils.OObjectId _ => allow_bson
  | Utils.OOther _ => false
  | Utils.OList xs | Utils.OTuple xs | Utils.ONdarray xs =>
      forallb (understood allow_bson) xs
  | Utils.ODict kvs | Utils.OMSONable kvs | Utils.OBaseModel kvs =>
      forallb (fun kv => understood allow_bson (snd kv)) kvs
  | _ => true
  end.

(** Example data. *)

Definition nscf_inputs : dict value :=
  [ ("incar", VDict [("ICHARG", VInt 11); ("NSW", VInt 0)]);
    ("kpoints", VDict [("labels", VList [VStr "G"; VStr "X"; VNone; VStr "M"])]) ].

Definition nscf_broken_inputs : dict value :=
  [ ("incar", VDict [("ICHARG", VInt 11)]); ("kpoints", VInt 5) ].

Definition static_incar : dict value :=
  [ ("NSW", VInt 0); ("ISIF", VInt 3); ("IBRION", VInt 2) ].

Definition dielectric_incar : dict value :=
  [ ("LEPSILON", VBool true); ("IBRION", VInt 8); ("NSW", VInt 0) ].

Definition relax_incar : dict value :=
  [ ("IBRION", VInt 2); ("NSW", VInt 99); ("ISIF", VInt 3) ].

Definition relax_incar_no_isif : dict value :=
  [ ("IBRION", VInt 2); ("NSW", VInt 99) ].

(** A table without the class HF. *)
Definition table_without_HF : rule_table :=
  [ ("GGA", [ ("PBE", [("GGA", VStr "PE")]) ]) ].

(** A table in which the special types [A B] and [A_B] get the member name
    [A_B]. *)
Definition clashing_table : rule_table :=
  [ ("GGA", [ ("A B", [("GGA", VStr "AB")]); ("A_B", [("GGA", VStr "A_B")]) ]);
    ("HF", []); ("METAGGA", []); ("VDW", []) ].

Definition pbe_parameters_noise : dict value :=
  [ ("functional", VList [VStr "PBE"]); ("GGA", VStr "PE"); ("ENCUT", VInt 520) ].

Definition cp2k_pbe_scalar : dict value :=
  [ ("functional", VStr "PBE"); ("Run_type", VStr "ENERGY") ].

Definition cp2k_geo_lower : dict value := [ ("Run_type", VStr "geo_opt") ].
Definition cp2k_geo_upper : dict value := [ ("Run_type", VStr "GEO_OPT") ].

Definition nested_object : Utils.obj :=
  Utils.ODict
    [ (Utils.OInt 1, Utils.OTuple [Utils.ONone; Utils.OFloat (Finite 1 (-1))]);
      (Utils.OStr "1", Utils.OMSONable [(Utils.OStr "@class", Utils.OStr "S")]);
      (Utils.OStr "t", Utils.ODatetime "2021-01-01") ].

Definition safe_tree : Utils.obj :=
  Utils.ODict
    [ (Utils.OStr "a", Utils.OList [Utils.ONone; Utils.OInt 1]);
      (Utils.OStr "b", Utils.OStr "x") ].

Definition sample_str_of (o : Utils.obj) : string :=
  match o with
  | Utils.OInt 1 => "1"
  | _ => "?"
  end.

(** Structures named by a number; the space group of [n] is [n mod 3], and
    cannot be found for multiples of 5; the matcher finds all the
    structures it is given equivalent. *)
Definition sample_space_group (n : nat) (symprec : unit) : result (string * Z) :=
  if Nat.eqb (n mod 5) 0 then Raise ValueError
  else Ok ("P1", Z.of_nat (n mod 3)).

Definition sample_matcher (ltol stol angle_tol : unit) (l : list nat)
  : list (list nat) :=
  [l].

Definition sample_structures : list nat := [4; 5; 1; 3; 2; 7]%nat.

End Extra.

(* ===================================================================== *)
(** ** Lemmas on the base layer *)
(* ===================================================================== *)

Section BaseLemmas.


Lemma append_assoc (a b c : string) : (a ++ b) ++ c = a ++ (b ++ c).
Proof. induction a as [|x a IH]; simpl; [reflexivity | now rewrite IH]. Qed.

Lemma bind_Ok {A B : Type} (r : result A) (k : A -> result B) (b : B) :
  bind r k = Ok b -> exists a, r = Ok a /\ k a = Ok b.
Proof. destruct r as [a|e]; simpl; [eauto | discriminate]. Qed.

Lemma dict_get_In {V : Type} (k : string) (d : dict V) (v : V) :
  dict_get k d = Some v -> In (k, v) d.
Proof.
  induction d as [|[k' v'] d IH]; simpl; [discriminate|].
  destruct (String.eqb_spec k k') as [->|_].
  - intros [= ->]. now left.
  - intros H. right. now apply IH.
Qed.


Lemma dict_set_In {V : Type} (k : string) (v : V) (d : dict V) (kv : string * V) :
  In kv (dict_set k v d) -> kv = (k, v) \/ In kv d.
Proof.
  induction d as [|[k' v'] d IH]; simpl.
  - intros [<-|[]]. now left.
  - destruct (String.eqb_spec k k') as [->|_]; simpl.
    + intros [<-|H]; [now left | right; now right].
    + intros [<-|H]; [right; now left|].
      destruct (IH H) as [->|H']; [now left | right; now right].
Qed.

Lemma dict_set_same {V : Type} (k : string) (v : V) (d : dict V) :
  In (k, v) (dict_set k v d).
Proof.
  induction d as [|[k' v'] d IH]; simpl; [now left|].
  destruct (String.eqb_spec k k') as [->|_]; simpl; [now left | now right].
Qed.

Lemma dict_set_other {V : Type} (k k' : string) (v v' : V) (d : dict V) :
  k' <> k -> In (k', v') d -> In (k', v') (dict_set k v d).
Proof.
  intros Hne. induction d as [|[k0 v0] d IH]; simpl; [tauto|].
  destruct (String.eqb_spec k k0) as [->|_]; simpl.
  - intros [[= -> ->]|H]; [congruence | now right].
  - intros [H|H]; [now left | right; now apply IH].
Qed.

Lemma dict_from_acc_In {V : Type} (pairs : list (string * V)) (acc : dict V)
    (kv : string * V) :
  In kv (fold_left (fun d p => dict_set (fst p) (snd p) d) pairs acc) ->
  In kv acc \/ In kv pairs.
Proof.
  revert acc. induction pairs as [|[k v] pairs IH]; simpl; intros acc H.
  - now left.
  - destruct (IH _ H) as [H'|H']; [|right; now right].
    destruct (dict_set_In _ _ _ _ H') as [->|H'']; [right; now left | now left].
Qed.

Lemma dict_from_In {V : Type} (pairs : list (string * V)) (kv : string * V) :
  In kv (dict_from pairs) -> In kv pairs.
Proof.
  intros H. destruct (dict_from_acc_In _ _ _ H) as [[]|H']. exact H'.
Qed.

Lemma dict_from_snoc {V : Type} (pairs : list (string * V)) (k : string) (v : V) :
  dict_from (pairs ++ [(k, v)]) = dict_set k v (dict_from pairs).
Proof. unfold dict_from. now rewrite fold_left_app. Qed.

Lemma enum_call_Ok (E : list member) (v : string) (m : member) :
  enum_call E v = Ok m -> In m E /\ value_ m = v.
Proof.
  unfold enum_call. destruct (find _ E) as [m'|] eqn:Hf; [|discriminate].
  intros [= <-]. apply find_some in Hf. destruct Hf as [Hin Heq].
  split; [exact Hin | now apply String.eqb_eq].
Qed.

Lemma enum_call_In (E : list member) (m : member) :
  In m E -> exists m', enum_call E (value_ m) = Ok m'.
Proof.
  intros Hin. unfold enum_call.
  destruct (find _ E) as [m'|] eqn:Hf; [eauto|].
  apply (find_none _ _ Hf) in Hin. now rewrite String.eqb_refl in Hin.
Qed.

Lemma Enum_In (c : string) (d : dict string) (m : member) :
  In m (Enum c d) -> In (name m, value_ m) d /\ cls m = c.
Proof.
  unfold Enum. rewrite in_map_iff. intros [[k v] [<- H]]. simpl. now split.
Qed.

Lemma In_Enum (c : string) (d : dict string) (k v : string) :
  In (k, v) d -> In (Member c k v) (Enum c d).
Proof. intros H. unfold Enum. apply in_map_iff. now exists (k, v). Qed.

End BaseLemmas.

(* ===================================================================== *)
(** ** The VASP run type *)
(* ===================================================================== *)

Section VaspRunType.

Variable table : rule_table.
Variable parameters : dict value.

Lemma RunType_shape (m : member) :
  In m (Vasp.RunType table) ->
  m = Member "RunType" (Vasp.run_name (value_ m)) (value_ m).
Proof.
  intros H. apply Enum_In in H. destruct H as [H Hc].
  apply dict_from_In in H. apply in_map_iff in H.
  destruct H as [rt [Heq _]]. destruct m as [c n v]. simpl in *.
  injection Heq as <- <-. now subst c.
Qed.

Lemma RunType_call (v : string) (m : member) :
  enum_call (Vasp.RunType table) v = Ok m ->
  m = Member "RunType" (Vasp.run_name v) v.
Proof.
  intros H. apply enum_call_Ok in H. destruct H as [Hin <-].
  now apply RunType_shape.
Qed.


(** The fallback labels are members of [RunType] whatever the table. *)
Lemma RunType_LDA :
  enum_call (Vasp.RunType table) "LDA" = Ok (Member "RunType" "LDA" "LDA").
Proof.
  destruct (enum_call_In (Vasp.RunType table) (Member "RunType" "LDA" "LDA"))
    as [m Hm].
  - unfold Vasp.RunType. apply In_Enum. unfold Vasp._RUN_TYPES.
    rewrite app_assoc, map_app.
    change (map (fun rt => (Vasp.run_name rt, rt)) ["LDA"; "LDA+U"])
      with ([("LDA", "LDA")] ++ [("LDA_U", "LDA+U")])%list.
    rewrite app_assoc, dict_from_snoc, dict_from_snoc.
    apply dict_set_other; [discriminate | apply dict_set_same].
  - simpl in Hm. rewrite Hm. now rewrite (RunType_call _ _ Hm).
Qed.

Lemma RunType_LDA_U :
  enum_call (Vasp.RunType table) "LDA+U" = Ok (Member "RunType" "LDA_U" "LDA+U").
Proof.
  destruct (enum_call_In (Vasp.RunType table) (Member "RunType" "LDA_U" "LDA+U"))
    as [m Hm].
  - unfold Vasp.RunType. apply In_Enum. unfold Vasp._RUN_TYPES.
    rewrite app_assoc, map_app.
    change (map (fun rt => (Vasp.run_name rt, rt)) ["LDA"; "LDA+U"])
      with ([("LDA", "LDA")] ++ [("LDA_U", "LDA+U")])%list.
    rewrite app_assoc, dict_from_snoc. apply dict_set_same.
  - simpl in Hm. rewrite Hm. now rewrite (RunType_call _ _ Hm).
Qed.



(** The inner loop returns the first special type of the class whose
    parameters all match. *)
Lemma first_rule_Some (rules : dict (dict value)) (st : string) :
  Vasp.first_rule parameters rules = Some st ->
  exists before ps after,
    rules = (before ++ (st, ps) :: after)%list /\
    rule_matches parameters ps = true /\
    forall rule, In rule before -> rule_matches parameters (snd rule) = false.
Proof.
  induction rules as [|[st0 ps0] rules IH]; simpl; [discriminate|].
  destruct (rule_matches parameters ps0) eqn:Hm.
  - intros [= <-]. exists [], ps0, rules. repeat split; [exact Hm|]. intros ? [].
  - intros H. destruct (IH H) as (before & ps & after & -> & Hps & Hb).
    exists ((st0, ps0) :: before), ps, after. repeat split; [exact Hps|].
    intros rule [<-|Hin]; [exact Hm | now apply Hb].
Qed.

Lemma first_rule_None (rules : dict (dict value)) :
  Vasp.first_rule parameters rules = None <->
  existsb (fun rule => rule_matches parameters (snd rule)) rules = false.
Proof.
  induction rules as [|[st0 ps0] rules IH]; simpl; [tauto|].
  destruct (rule_matches parameters ps0); simpl; [split; discriminate | exact IH].
Qed.

Lemma satisfies_first_rule (c : string) (rules : dict (dict value)) :
  dict_get c table = Some rules ->
  Spec.satisfies table parameters c = false <->
  Vasp.first_rule parameters rules = None.
Proof.
  intros Hc. unfold Spec.satisfies. rewrite Hc. symmetry. apply first_rule_None.
Qed.

(** The outer loop over a list of declared classes either finds no class
    with a matching rule, or stops in the first such class at its first
    matching rule. *)
Lemma scan_classes_spec (classes : list string) :
  (forall c, In c classes -> exists rules, dict_get c table = Some rules) ->
  (Vasp.scan_classes table parameters classes = Ok None /\
   forall c, In c classes -> Spec.satisfies table parameters c = false)
  \/
  (exists k c rules st,
     nth_error classes k = Some c /\
     dict_get c table = Some rules /\
     Vasp.first_rule parameters rules = Some st /\
     (forall k' c', (k' < k)%nat -> nth_error classes k' = Some c' ->
                    Spec.satisfies table parameters c' = false) /\
     Vasp.scan_classes table parameters classes = Ok (Some st)).
Proof.
  induction classes as [|c0 classes IH]; intros Hdecl.
  - left. split; [reflexivity | intros ? []].
  - destruct (Hdecl c0 (or_introl eq_refl)) as [rules0 H0].
    simpl. unfold dict_item. rewrite H0. simpl.
    destruct (Vasp.first_rule parameters rules0) as [st0|] eqn:Hf.
    + right. exists 0%nat, c0, rules0, st0. repeat split; try assumption.
      intros k' c' Hlt. lia.
    + assert (Hs0 : Spec.satisfies table parameters c0 = false)
        by now apply (satisfies_first_rule c0 rules0 H0).
      destruct IH as [[Hnone Hall]|(k & c & rules & st & Hk & Hc & Hst & Hlt & Hscan)].
      * intros c Hc. apply Hdecl. now right.
      * left. split; [exact Hnone|]. intros c [<-|Hc]; [exact Hs0 | now apply Hall].
      * right. exists (S k), c, rules, st. repeat split; try assumption.
        intros [|k'] c' Hlt' Hn; simpl in Hn.
        -- now injection Hn as <-.
        -- apply (Hlt k'); [lia | exact Hn].
Qed.

Lemma has_classes_decl :
  Spec.has_classes table = true ->
  forall c, In c Vasp.class_order -> exists rules, dict_get c table = Some rules.
Proof.
  unfold Spec.has_classes. rewrite forallb_forall. intros H c Hc.
  specialize (H c Hc). destruct (dict_get c table) as [rules|]; [eauto | discriminate].
Qed.

End VaspRunType.

(** The label that [run_type] builds from a special type. *)
Lemma run_type_of_scan (table : rule_table) (parameters : dict value)
    (r : option string) :
  Vasp.scan_classes table parameters Vasp.class_order = Ok r ->
  Vasp.run_type table parameters =
  enum_call (Vasp.RunType table)
    (match r with Some st => st | None => "LDA" end ++ Vasp.is_hubbard parameters).
Proof. intros H. unfold Vasp.run_type. rewrite H. now destruct r. Qed.




(** C2.  When no rule of the four classes has all its required parameters
    matching, the VASP run_type returns the member LDA, and the member
    LDA+U exactly when the flag LDAU is set. *)
Theorem C2_fallback_LDA (table : rule_table) (parameters : dict value) :
  Spec.has_classes table = true ->
  Spec.unmatched table parameters = true ->
  Vasp.run_type table parameters =
  Ok (if py_truthy (dict_get_default "LDAU" (VBool false) parameters)
      then Member "RunType" "LDA_U" "LDA+U"
      else Member "RunType" "LDA" "LDA").
Proof.
  intros Hdecl Hun.
  destruct (scan_classes_spec table parameters Vasp.class_order
              (has_classes_decl table Hdecl))
    as [[Hnone _]|(k & c & rules & st & Hk & Hc & Hst & _ & _)].
  - rewrite (run_type_of_scan _ _ _ Hnone). unfold Vasp.is_hubbard.
    destruct (py_truthy _); simpl; [apply RunType_LDA_U | apply RunType_LDA].
  - unfold Spec.unmatched in Hun. rewrite forallb_forall in Hun.
    specialize (Hun c (nth_error_In _ _ Hk)).
    apply negb_true_iff in Hun.
    rewrite (satisfies_first_rule table parameters c rules Hc) in Hun. congruence.
Qed.

Lemma C2_fallback_LDA_witness :
  Vasp.run_type Sample.vasp_table [("LDAU", VBool true); ("GGA", VStr "XX")] =
  Ok (Member "RunType" "LDA_U" "LDA+U").
Proof.
  apply (C2_fallback_LDA Sample.vasp_table
           [("LDAU", VBool true); ("GGA", VStr "XX")]); reflexivity.
Defined.

(* ===================================================================== *)
(** ** The Hubbard suffix *)
(* ===================================================================== *)

Section Extensionality.

Variable table : rule_table.
Variables p1 p2 : dict value.

(** Two parameter dicts on which every rule of the listed classes gives
    the same verdict are scanned alike. *)
Lemma first_rule_ext (rules : dict (dict value)) :
  (forall rule, In rule rules ->
     rule_matches p1 (snd rule) = rule_matches p2 (snd rule)) ->
  Vasp.first_rule p1 rules = Vasp.first_rule p2 rules.
Proof.
  induction rules as [|[st ps] rules IH]; simpl; intros H; [reflexivity|].
  pose proof (H (st, ps) (or_introl eq_refl)) as Hhead. simpl in Hhead.
  rewrite Hhead.
  destruct (rule_matches p2 ps); [reflexivity|].
  apply IH. intros rule Hin. apply H. now right.
Qed.


Lemma vasp_scan_ext (classes : list string) :
  (forall c rules rule, In c classes -> dict_get c table = Some rules ->
     In rule rules -> rule_matches p1 (snd rule) = rule_matches p2 (snd rule)) ->
  Vasp.scan_classes table p1 classes = Vasp.scan_classes table p2 classes.
Proof.
  induction classes as [|c classes IH]; simpl; intros H; [reflexivity|].
  unfold dict_item. destruct (dict_get c table) as [rules|] eqn:Hc; simpl;
    [|reflexivity].
  rewrite (first_rule_ext rules (fun rule => H c rules rule (or_introl eq_refl) Hc)).
  destruct (Vasp.first_rule p2 rules); [reflexivity|].
  apply IH. intros c' rules' rule Hin. apply H. now right.
Qed.



End Extensionality.






(* ===================================================================== *)
(** ** The label of the first matching rule *)
(* ===================================================================== *)

Lemma dict_get_declared {V : Type} (k : string) (d : dict V) :
  In k (map fst d) -> exists v, dict_get k d = Some v.
Proof.
  induction d as [|[k' v'] d IH]; simpl; [intros []|].
  intros [H|H]; destruct (String.eqb_spec k k') as [->|Hne]; eauto.
  congruence.
Qed.

(** The CP2K loop over declared classes either finds no class with a
    matching rule, or stops at the first such class. *)
Lemma cp2k_scan_spec (table : rule_table) (parameters : dict value)
    (classes : list string) :
  (forall c, In c classes -> exists rules, dict_get c table = Some rules) ->
  (Cp2k.scan_classes table parameters classes = Ok None /\
   forall c, In c classes -> Spec.satisfies table parameters c = false)
  \/
  (exists k c,
     nth_error classes k = Some c /\
     Spec.satisfies table parameters c = true /\
     (forall k' c', (k' < k)%nat -> nth_error classes k' = Some c' ->
                    Spec.satisfies table parameters c' = false) /\
     Cp2k.scan_classes table parameters classes = Ok (Some c)).
Proof.
  induction classes as [|c0 classes IH]; intros Hdecl.
  - left. split; [reflexivity | intros ? []].
  - destruct (Hdecl c0 (or_introl eq_refl)) as [rules0 H0].
    assert (Hs0 : Spec.satisfies table parameters c0 =
                  Cp2k.class_matches parameters rules0)
      by (unfold Spec.satisfies; now rewrite H0).
    simpl. unfold dict_item. rewrite H0. simpl.
    destruct (Cp2k.class_matches parameters rules0) eqn:Hm.
    + right. exists 0%nat, c0. repeat split; try assumption.
      intros k' c' Hlt. lia.
    + destruct IH as [[Hnone Hall]|(k & c & Hk & Hc & Hlt & Hscan)].
      * intros c Hc. apply Hdecl. now right.
      * left. split; [exact Hnone|]. intros c [<-|Hc]; [exact Hs0 | now apply Hall].
      * right. exists (S k), c. repeat split; try assumption.
        intros [|k'] c' Hlt' Hn; simpl in Hn.
        -- now injection Hn as <-.
        -- apply (Hlt k'); [lia | exact Hn].
Qed.




(* ===================================================================== *)
(** ** Task types and calc types *)
(* ===================================================================== *)

(** The empty label is not a value of the VASP [TaskType]. *)
Lemma vasp_task_type_empty (inputs : dict value) :
  Vasp.task_labels inputs = Ok [] -> Vasp.task_type inputs = Raise ValueError.
Proof. intros H. unfold Vasp.task_type. now rewrite H. Qed.

(** On every INCAR on which no branch of the chain applies, the VASP
    task_type raises [ValueError]. *)
Lemma vasp_task_type_no_branch (inputs : dict value) (incar : dict value) :
  dict_get_default "incar" (VDict []) inputs = VDict incar ->
  py_gt_int (dict_get_default "ICHARG" (VInt 0) incar) 10 = Ok false ->
  py_truthy (dict_get_default "LEPSILON" (VBool false) incar) = false ->
  py_gt_int (dict_get_default "IBRION" (VInt 0) incar) 6 = Ok false ->
  py_truthy (dict_get_default "LCHIMAG" (VBool false) incar) = false ->
  py_truthy (dict_get_default "LEFG" (VBool false) incar) = false ->
  py_eq (dict_get_default "NSW" (VInt 1) incar) (VInt 0) = false ->
  (py_eq (dict_get_default "ISIF" (VInt 2) incar) (VInt 3) = false \/
   py_gt_int (dict_get_default "IBRION" (VInt 0) incar) 0 = Ok false) ->
  (py_eq (dict_get_default "ISIF" (VInt 3) incar) (VInt 2) = false \/
   py_gt_int (dict_get_default "IBRION" (VInt 0) incar) 0 = Ok false) ->
  Vasp.task_type inputs = Raise ValueError.
Proof.
  intros Hincar Hicharg Hleps Hibrion Hlchi Hlefg Hnsw Hrelax Hdeform.
  apply vasp_task_type_empty. unfold Vasp.task_labels. rewrite Hincar.
  cbn [py_get bind]. rewrite Hicharg. cbn [bind]. rewrite Hleps, Hibrion.
  cbn [bind]. rewrite Hlchi, Hlefg, Hnsw.
  assert (Hr : (if py_eq (dict_get_default "ISIF" (VInt 2) incar) (VInt 3)
                then py_gt_int (dict_get_default "IBRION" (VInt 0) incar) 0
                else Ok false) = Ok false)
    by (destruct Hrelax as [Hx | Hx]; rewrite Hx;
        [reflexivity
        | now destruct (py_eq (dict_get_default "ISIF" (VInt 2) incar) (VInt 3))]).
  assert (Hd : (if py_eq (dict_get_default "ISIF" (VInt 3) incar) (VInt 2)
                then py_gt_int (dict_get_default "IBRION" (VInt 0) incar) 0
                else Ok false) = Ok false)
    by (destruct Hdeform as [Hx | Hx]; rewrite Hx;
        [reflexivity
        | now destruct (py_eq (dict_get_default "ISIF" (VInt 3) incar) (VInt 2))]).
  cbn [bind]. rewrite Hr. cbn [bind]. rewrite Hd. reflexivity.
Qed.

(** C5, VASP, at the input [{"incar": {"IBRION": 0, "NSW": 100}}]: no
    branch of the if/elif chain applies, the list of labels is empty, and
    [TaskType("")] raises [ValueError]: the empty label is not among the
    ten values of [TaskType]. *)
Theorem C5_vasp_no_branch_raises :
  Vasp.task_labels Sample.md_inputs = Ok [] /\
  enum_call Vasp.TaskType "" = Raise ValueError /\
  Vasp.task_type Sample.md_inputs = Raise ValueError.
Proof. repeat split; reflexivity. Qed.

Lemma list_ascii_app (a b : string) :
  list_ascii_of_string (a ++ b) =
  (list_ascii_of_string a ++ list_ascii_of_string b)%list.
Proof. induction a as [|c a IH]; simpl; [reflexivity | now rewrite IH]. Qed.

Lemma compatible_prefixes (x y u v : list ascii) :
  (x ++ u = y ++ v)%list -> Spec.compatible x y = true.
Proof.
  revert y. induction x as [|c x IH]; intros [|d y]; simpl; try reflexivity.
  intros [= -> H]. rewrite Ascii.eqb_refl. simpl. now apply IH.
Qed.

Lemma suffix_clash_neq (p q a b : string) :
  Spec.suffix_clash a b = true -> p ++ a <> q ++ b.
Proof.
  unfold Spec.suffix_clash. intros Hclash Heq.
  apply (f_equal list_ascii_of_string) in Heq.
  rewrite !list_ascii_app in Heq.
  apply (f_equal (@rev ascii)) in Heq. rewrite !rev_app_distr in Heq.
  apply compatible_prefixes in Heq. rewrite Heq in Hclash. discriminate.
Qed.

(** Every value of the VASP [CalcType] is a run type, a space and one of
    the ten task labels. *)
Lemma CalcType_value (table : rule_table) (m : member) :
  In m (Vasp.CalcType table) ->
  exists rt label, In label Vasp._TASK_TYPES /\ value_ m = rt ++ " " ++ label.
Proof.
  intros H. apply Enum_In in H. destruct H as [H _].
  apply dict_from_In in H. apply in_map_iff in H.
  destruct H as [[rt label] [Heq Hin]]. simpl in Heq.
  apply in_prod_iff in Hin. destruct Hin as [_ Hin].
  exists rt, label. split; [exact Hin|]. now injection Heq as _ <-.
Qed.

(** The VASP calc_type formats the two members with [str], and the string
    it looks up is no value of [CalcType]: the call never returns. *)
Lemma vasp_calc_type_never_returns
    (table : rule_table) (inputs parameters : dict value) (m : member) :
  Vasp.calc_type table inputs parameters <> Ok m.
Proof.
  intros H. unfold Vasp.calc_type in H.
  apply bind_Ok in H. destruct H as (rt & _ & H).
  apply bind_Ok in H. destruct H as (tt & Htt & H).
  apply enum_call_Ok in H. destruct H as [Hin Hval].
  destruct (CalcType_value table m Hin) as (rt' & label & Hlabel & Hm).
  unfold Vasp.task_type in Htt. apply bind_Ok in Htt.
  destruct Htt as (labels & _ & Htt). apply enum_call_Ok in Htt.
  destruct Htt as [Htt _].
  assert (Hclash : Spec.task_suffixes_clash = true) by (vm_compute; reflexivity).
  unfold Spec.task_suffixes_clash in Hclash.
  rewrite forallb_forall in Hclash. specialize (Hclash tt Htt).
  rewrite forallb_forall in Hclash. specialize (Hclash label Hlabel).
  rewrite Hm in Hval.
  exact (suffix_clash_neq (str_member rt) rt' _ _ Hclash (eq_sym Hval)).
Qed.

(** C6, VASP, at the inputs [{"incar": {"NSW": 0}}] and the parameters
    [{"GGA": "PE"}]: run_type returns the member PBE and task_type the
    member Static; "PBE Static" is a value of [CalcType]; calc_type looks
    up "RunType.PBE TaskType.Static" instead and raises [ValueError]. *)
Theorem C6_vasp_calc_type_raises :
  Vasp.run_type Sample.vasp_table Sample.pbe_parameters =
    Ok (Member "RunType" "PBE" "PBE") /\
  Vasp.task_type Sample.static_inputs = Ok (Member "TaskType" "Static" "Static") /\
  enum_call (Vasp.CalcType Sample.vasp_table) ("PBE" ++ " " ++ "Static") =
    Ok (Member "CalcType" "PBE_Static" "PBE Static") /\
  str_member (Member "RunType" "PBE" "PBE") ++ " " ++
  str_member (Member "TaskType" "Static" "Static") = "RunType.PBE TaskType.Static" /\
  Vasp.calc_type Sample.vasp_table Sample.static_inputs Sample.pbe_parameters =
    Raise ValueError.
Proof. repeat split; vm_compute; reflexivity. Qed.

(** In CP2K the composition is the one of the specification whenever
    run_type returns a member. *)
Lemma cp2k_calc_type_composition
    (table : rule_table) (RunType TaskType CalcType : list member)
    (inputs : dict value) (rt tt : member) :
  Cp2k.run_type table RunType inputs = Ok (Some rt) ->
  Cp2k.task_type TaskType inputs = Ok tt ->
  Cp2k.calc_type table RunType TaskType CalcType inputs =
  enum_call CalcType (value_ rt ++ " " ++ value_ tt).
Proof. intros Hr Ht. unfold Cp2k.calc_type. now rewrite Hr, Ht. Qed.

(** When the CP2K run_type returns the unset result, calc_type raises an
    [AttributeError] of its own, before task_type is called. *)
Lemma cp2k_calc_type_unset
    (table : rule_table) (RunType TaskType CalcType : list member)
    (inputs : dict value) :
  Cp2k.run_type table RunType inputs = Ok None ->
  Cp2k.calc_type table RunType TaskType CalcType inputs = Raise AttributeError.
Proof. intros Hr. unfold Cp2k.calc_type. now rewrite Hr. Qed.

(** C8, CP2K, at the inputs [{"functional": ["XYZ"], "Run_type": "ENERGY"}]:
    no rule matches, run_type returns the unset result without error,
    task_type returns Static without error, and calc_type raises
    [AttributeError]. *)
Theorem C8_cp2k_calc_type_raises :
  Cp2k.run_type Sample.cp2k_table Sample.cp2k_RunType Sample.cp2k_unknown = Ok None /\
  Cp2k.task_type Sample.cp2k_TaskType Sample.cp2k_unknown =
    Ok (Member "TaskType" "Static" "Static") /\
  Cp2k.calc_type Sample.cp2k_table Sample.cp2k_RunType Sample.cp2k_TaskType
    Sample.cp2k_CalcType Sample.cp2k_unknown = Raise AttributeError.
Proof. repeat split; reflexivity. Qed.

(* ===================================================================== *)
(** ** An absent CP2K functional *)
(* ===================================================================== *)

(** C10, at the dft dict [{"hfx": None}]: the functional is absent, taking
    the length of [None] would raise [TypeError], and run_type raises
    [AttributeError] one statement earlier, at the lookup in [hfx]. *)
Lemma C10_hfx_counterexample :
  dict_get "functional" [("hfx", VNone)] = None /\
  py_len VNone = Raise TypeError /\
  py_get VNone "Interaction_Potential" VNone = Raise AttributeError /\
  Cp2k.run_type Sample.cp2k_table Sample.cp2k_RunType [("hfx", VNone)] =
    Raise AttributeError /\
  Cp2k.run_type Sample.cp2k_table Sample.cp2k_RunType [("hfx", VNone)] <>
    Raise TypeError.
Proof. repeat split; try reflexivity. discriminate. Qed.

(** C10, amended.  When the key functional is absent or maps to [None],
    the CP2K run_type raises whatever the rule table and never returns a
    result, unset or not: the [TypeError] of [len(None)] at the unwrap
    step when [hfx] is absent or a dict, and the [AttributeError] of the
    lookup in [hfx] that precedes it when [hfx] maps to anything else. *)
Theorem C10_absent_functional_raises
    (table : rule_table) (RunType : list member) (dft : dict value) :
  dict_get_default "functional" VNone dft = VNone ->
  Cp2k.run_type table RunType dft =
  match dict_get_default "hfx" (VDict []) dft with
  | VDict _ => Raise TypeError
  | _ => Raise AttributeError
  end.
Proof.
  intros Hf. unfold Cp2k.run_type, Cp2k.build_parameters. rewrite Hf.
  destruct (dict_get_default "hfx" (VDict []) dft); reflexivity.
Qed.

Lemma C10_absent_functional_raises_witness :
  Cp2k.run_type Sample.cp2k_table Sample.cp2k_RunType
    [("Run_type", VStr "ENERGY")] = Raise TypeError.
Proof.
  apply (C10_absent_functional_raises Sample.cp2k_table Sample.cp2k_RunType
           [("Run_type", VStr "ENERGY")]).
  reflexivity.
Defined.

(* ===================================================================== *)
(** ** jsanitize *)
(* ===================================================================== *)

Section Jsanitize.

Import Utils.

Variable str_of : obj -> string.
Variables strict allow_bson : bool.

(** C9, at an enumeration member whose value is the dict [{1: "x"}]: in
    both modes, with or without [allow_bson], jsanitize returns the value
    of the member as it is, a dict with the int key 1. *)
Theorem C9_enum_value_not_sanitized :
  jsanitize str_of strict allow_bson Sample.enum_of_dict =
    Ok (ODict [(OInt 1, OStr "x")]) /\
  string_keyed (ODict [(OInt 1, OStr "x")]) = false.
Proof. split; reflexivity. Qed.

(** The same dict outside an enumeration gets a string key. *)
Lemma jsanitize_plain_dict :
  jsanitize str_of strict allow_bson (ODict [(OInt 1, OStr "x")]) =
    Ok (ODict [(OStr (str_of (OInt 1)), OStr "x")]).
Proof. reflexivity. Qed.

Lemma comprehension_Ok {A B : Type} (f : A -> result B) (xs : list A)
    (ys : list B) :
  comprehension f xs = Ok ys -> Forall2 (fun x y => f x = Ok y) xs ys.
Proof.
  revert ys. induction xs as [|x xs IH]; simpl; intros ys H.
  - injection H as <-. constructor.
  - apply bind_Ok in H. destruct H as (y & Hy & H).
    apply bind_Ok in H. destruct H as (ys' & Hys & [= <-]).
    constructor; [exact Hy | now apply IH].
Qed.

(** Induction on objects, with the property known of the parts that
    jsanitize visits. *)
Lemma obj_visit_ind (P : obj -> Prop) :
  (forall o, (forall xs, o <> OList xs) -> (forall xs, o <> OTuple xs) ->
             (forall xs, o <> ONdarray xs) -> (forall kvs, o <> ODict kvs) ->
             (forall kvs, o <> OMSONable kvs) -> (forall kvs, o <> OBaseModel kvs) ->
             (forall d, o <> OOther (Some d)) -> P o) ->
  (forall xs, Forall P xs -> P (OList xs)) ->
  (forall xs, Forall P xs -> P (OTuple xs)) ->
  (forall xs, Forall P xs -> P (ONdarray xs)) ->
  (forall kvs, Forall (fun kv => P (snd kv)) kvs -> P (ODict kvs)) ->
  (forall kvs, Forall (fun kv => P (snd kv)) kvs -> P (OMSONable kvs)) ->
  (forall kvs, Forall (fun kv => P (snd kv)) kvs -> P (OBaseModel kvs)) ->
  (forall d, P d -> P (OOther (Some d))) ->
  forall o, P o.
Proof.
  intros Hleaf Hlist Htuple Harray Hdict Hmson Hmodel Hother.
  fix IH 1. intros o.
  destruct o as [ | | | | | | | |xs|xs|xs|v|kvs|kvs|kvs|[d|]];
    try (apply Hleaf; intros; discriminate).
  - apply Hlist. induction xs as [|x xs IHxs]; constructor; [apply IH | exact IHxs].
  - apply Htuple. induction xs as [|x xs IHxs]; constructor; [apply IH | exact IHxs].
  - apply Harray. induction xs as [|x xs IHxs]; constructor; [apply IH | exact IHxs].
  - apply Hdict. induction kvs as [|[k v] kvs IHkvs]; constructor;
      [apply IH | exact IHkvs].
  - apply Hmson. induction kvs as [|[k v] kvs IHkvs]; constructor;
      [apply IH | exact IHkvs].
  - apply Hmodel. induction kvs as [|[k v] kvs IHkvs]; constructor;
      [apply IH | exact IHkvs].
  - apply Hother. apply IH.
Qed.

Lemma each_string_keyed (xs ys : list obj) :
  Forall (keeps_string_keys str_of strict allow_bson) xs ->
  forallb enum_free xs = true ->
  comprehension (jsanitize str_of strict allow_bson) xs = Ok ys ->
  forallb string_keyed ys = true.
Proof.
  intros Hall Hfree Hc. apply comprehension_Ok in Hc.
  induction Hc as [|x y xs ys Hxy _ IH]; [reflexivity|].
  simpl in *. apply andb_true_iff in Hfree. destruct Hfree as [Hx Hxs].
  inversion Hall as [|? ? Hpx Hpxs]; subst.
  apply andb_true_iff. split; [now apply (Hpx y) | now apply IH].
Qed.

Lemma items_string_keyed (kvs : list (obj * obj)) (kvs' : list (string * obj)) :
  Forall (fun kv => keeps_string_keys str_of strict allow_bson (snd kv)) kvs ->
  forallb (fun kv => enum_free (snd kv)) kvs = true ->
  comprehension
    (fun kv : obj * obj =>
       let (k, v) := kv in
       v' <- jsanitize str_of strict allow_bson v ;; Ok (py_str str_of k, v'))
    kvs = Ok kvs' ->
  string_keyed (str_dict kvs') = true.
Proof.
  intros Hall Hfree Hc.
  assert (Hvals : forall kv, In kv kvs' -> string_keyed (snd kv) = true).
  { apply comprehension_Ok in Hc.
    induction Hc as [|[k v] [k' v'] kvs kvs' Hxy _ IH]; [intros ? []|].
    simpl in Hfree. apply andb_true_iff in Hfree. destruct Hfree as [Hv Hrest].
    inversion Hall as [|? ? Hpv Hprest]; subst. simpl in Hpv.
    apply bind_Ok in Hxy. destruct Hxy as (w & Hw & [= <- <-]).
    intros kv [<-|Hin]; [now apply (Hpv w) | now apply IH]. }
  unfold str_dict. simpl. apply forallb_forall. intros kv Hin.
  apply in_map_iff in Hin. destruct Hin as [[k v] [<- Hin]]. simpl.
  apply (Hvals (k, v)). now apply dict_from_In.
Qed.

(** On an input without enumeration members, every dict of the result has
    only strings as keys. *)
Lemma jsanitize_string_keyed (o : obj) :
  keeps_string_keys str_of strict allow_bson o.
Proof.
  revert o. apply obj_visit_ind; unfold keeps_string_keys.
  - intros o Hlist Htuple Harray Hdict Hmson Hmodel Hother o' Hfree Hs.
    destruct o as [ | | | | | | | |xs|xs|xs|v|kvs|kvs|kvs|[d|]];
      try (exfalso; eapply Hlist; reflexivity);
      try (exfalso; eapply Htuple; reflexivity);
      try (exfalso; eapply Harray; reflexivity);
      try (exfalso; eapply Hdict; reflexivity);
      try (exfalso; eapply Hmson; reflexivity);
      try (exfalso; eapply Hmodel; reflexivity);
      try (exfalso; eapply Hother; reflexivity);
      try discriminate;
      simpl in Hs;
      try (destruct allow_bson; [injection Hs as <-; reflexivity|]);
      try (destruct strict; simpl in Hs; [discriminate|]);
      injection Hs as <-; reflexivity.
  - intros xs IH o' Hfree Hs. simpl in Hs. apply bind_Ok in Hs.
    destruct Hs as (ys & Hys & [= <-]).
    exact (each_string_keyed xs ys IH Hfree Hys).
  - intros xs IH o' Hfree Hs. simpl in Hs. apply bind_Ok in Hs.
    destruct Hs as (ys & Hys & [= <-]).
    exact (each_string_keyed xs ys IH Hfree Hys).
  - intros xs IH o' Hfree Hs. simpl in Hs. apply bind_Ok in Hs.
    destruct Hs as (ys & Hys & [= <-]).
    exact (each_string_keyed xs ys IH Hfree Hys).
  - intros kvs IH o' Hfree Hs. simpl in Hs. apply bind_Ok in Hs.
    destruct Hs as (ys & Hys & [= <-]).
    exact (items_string_keyed kvs ys IH Hfree Hys).
  - intros kvs IH o' Hfree Hs. simpl in Hs. apply bind_Ok in Hs.
    destruct Hs as (ys & Hys & [= <-]).
    exact (items_string_keyed kvs ys IH Hfree Hys).
  - intros kvs IH o' Hfree Hs. simpl in Hs. apply bind_Ok in Hs.
    destruct Hs as (ys & Hys & [= <-]).
    exact (items_string_keyed kvs ys IH Hfree Hys).
  - intros d IH o' Hfree Hs. simpl in Hs, Hfree.
    destruct strict; simpl in Hs; [now apply IH | injection Hs as <-; reflexivity].
Qed.

End Jsanitize.

(* ===================================================================== *)
(** ** Letter case and surrounding whitespace *)
(* ===================================================================== *)

Section Strings.

Lemma upper_char_idem (c : ascii) : upper_char (upper_char c) = upper_char c.
Proof. destruct c as [[] [] [] [] [] [] [] []]; reflexivity. Qed.

Lemma upper_char_lower_inj (c d : ascii) :
  is_lower c = true -> is_lower d = true ->
  upper_char c = upper_char d -> c = d.
Proof.
  unfold upper_char. intros Hc Hd. rewrite Hc, Hd. intros H.
  unfold is_lower in Hc, Hd.
  apply andb_true_iff in Hc. destruct Hc as [Hc1 Hc2].
  apply andb_true_iff in Hd. destruct Hd as [Hd1 Hd2].
  apply Nat.leb_le in Hc1, Hc2, Hd1, Hd2.
  apply (f_equal nat_of_ascii) in H.
  rewrite !nat_ascii_embedding in H by lia.
  rewrite <- (ascii_nat_embedding c), <- (ascii_nat_embedding d).
  f_equal. lia.
Qed.

Lemma upper_char_same_letter (c d : ascii) :
  upper_char c = upper_char d <-> Spec.same_letter c d.
Proof.
  split.
  - intros H. destruct (is_lower c) eqn:Hc, (is_lower d) eqn:Hd.
    + left. now apply upper_char_lower_inj.
    + right. left. split; [exact Hc|].
      rewrite H. unfold upper_char. now rewrite Hd.
    + right. right. split; [exact Hd|].
      rewrite <- H. unfold upper_char. now rewrite Hc.
    + left. unfold upper_char in H. now rewrite Hc, Hd in H.
  - intros [->|[[_ ->]|[_ ->]]]; [reflexivity | | ];
      now rewrite upper_char_idem.
Qed.

Lemma upper_ci_equal (s t : string) : upper s = upper t <-> Spec.ci_equal s t.
Proof.
  split.
  - revert t. induction s as [|c s IH]; intros [|d t]; simpl; try discriminate.
    + constructor.
    + intros [= Hc Hs]. constructor;
        [now apply upper_char_same_letter | now apply IH].
  - induction 1 as [|c d s t Hcd _ IH]; simpl; [reflexivity|].
    apply upper_char_same_letter in Hcd. now rewrite Hcd, IH.
Qed.













End Strings.

(* ===================================================================== *)
(** ** Rule matching *)
(* ===================================================================== *)

Section Matching.






(** A functional given by name reaches the rules as that name. *)
Lemma cp2k_parameters_of_name (a : string) (dft : dict value) :
  Spec.functional_is a dft ->
  Cp2k.build_parameters dft =
  (potential <-
     py_get (dict_get_default "hfx" (VDict []) dft) "Interaction_Potential" VNone ;;
   fraction <- py_get (dict_get_default "hfx" (VDict []) dft) "FRACTION" (VInt 0) ;;
   Ok [ ("FUNCTIONAL", VStr a); ("INTERACTION_POTENTIAL", potential);
        ("FRACTION", fraction) ]).
Proof.
  intros Hf. unfold Cp2k.build_parameters.
  destruct (py_get (dict_get_default "hfx" (VDict []) dft)
              "Interaction_Potential" VNone) as [potential|e]; [|reflexivity].
  destruct (py_get (dict_get_default "hfx" (VDict []) dft)
              "FRACTION" (VInt 0)) as [fraction|e]; [|reflexivity].
  destruct Hf as [Hf|Hf].
  - replace (dict_get_default "functional" VNone dft) with (VStr a)
      by (unfold dict_get_default; now rewrite Hf).
    destruct a as [|c [|c' a]]; try reflexivity.
    change (dict_get_default "FUNCTIONAL" VNone _) with (VStr (String c (String c' a))).
    cbn [bind py_len String.length].
    replace (Z.of_nat (S (S (String.length a))) =? 1)%Z with false; [reflexivity|].
    symmetry. apply Z.eqb_neq. lia.
  - replace (dict_get_default "functional" VNone dft) with (VList [VStr a])
      by (unfold dict_get_default; now rewrite Hf).
    reflexivity.
Qed.



End Matching.



(** The three spellings of the specification. *)
Lemma pbe_spellings :
  _variant_equal (VStr "pbe") (VStr "PBE") = true /\
  _variant_equal (VStr " PBE ") (VStr "PBE") = true /\
  _variant_equal (VStr "pbe") (VStr " PBE ") = true /\
  _variant_equal (VStr "pbe") (VStr "PB E") = false.
Proof. repeat split; reflexivity. Qed.

(* ===================================================================== *)
(** ** Further properties: the VASP enumerations and run type *)
(* ===================================================================== *)

Section DictComprehension.

Context {V : Type}.

Lemma dict_get_set (k k' : string) (v : V) (d : dict V) :
  dict_get k (dict_set k' v d) =
  if String.eqb k k' then Some v else dict_get k d.
Proof.
  induction d as [|[k0 v0] d IH]; simpl; [reflexivity|].
  destruct (String.eqb_spec k' k0) as [->|Hne]; simpl.
  - destruct (String.eqb k k0); reflexivity.
  - rewrite IH. destruct (String.eqb_spec k k0) as [->|_]; [|reflexivity].
    destruct (String.eqb_spec k0 k') as [E|_]; [congruence | reflexivity].
Qed.

(** A dict comprehension keeps, under each key, the last value given. *)
Lemma dict_get_from (k : string) (pairs : list (string * V)) :
  dict_get k (dict_from pairs) = dict_get k (rev pairs).
Proof.
  induction pairs as [|[k' v] pairs IH] using rev_ind; [reflexivity|].
  rewrite dict_from_snoc, rev_app_distr, dict_get_set. simpl. now rewrite IH.
Qed.

Lemma dict_set_key_In (k k' : string) (v : V) (d : dict V) :
  In k (map fst (dict_set k' v d)) -> k = k' \/ In k (map fst d).
Proof.
  rewrite in_map_iff. intros [[k0 v0] [<- H]].
  apply dict_set_In in H. destruct H as [[= -> ->]|H]; [now left|].
  right. now apply (in_map fst) in H.
Qed.

Lemma dict_set_NoDup (k : string) (v : V) (d : dict V) :
  NoDup (map fst d) -> NoDup (map fst (dict_set k v d)).
Proof.
  induction d as [|[k0 v0] d IH]; simpl; intros H.
  - constructor; [intros [] | constructor].
  - inversion H as [|? ? Hnotin Hd]; subst.
    destruct (String.eqb_spec k k0) as [->|Hne]; simpl.
    + now constructor.
    + constructor; [|now apply IH].
      intros Hin. apply dict_set_key_In in Hin. destruct Hin as [->|Hin]; tauto.
Qed.

(** The keys of a dict comprehension are distinct. *)
Lemma dict_from_NoDup (pairs : list (string * V)) :
  NoDup (map fst (dict_from pairs)).
Proof.
  induction pairs as [|[k v] pairs IH] using rev_ind; [constructor|].
  rewrite dict_from_snoc. now apply dict_set_NoDup.
Qed.

Lemma In_dict_get (k : string) (v : V) (d : dict V) :
  NoDup (map fst d) -> In (k, v) d -> dict_get k d = Some v.
Proof.
  induction d as [|[k0 v0] d IH]; simpl; [tauto|].
  intros H Hin. inversion H as [|? ? Hnotin Hd]; subst.
  destruct Hin as [[= -> ->]|Hin].
  - now rewrite String.eqb_refl.
  - destruct (String.eqb_spec k k0) as [->|_]; [|now apply IH].
    exfalso. apply Hnotin. now apply (in_map fst) in Hin.
Qed.

Lemma dict_set_fresh (k : string) (v : V) (d : dict V) :
  ~ In k (map fst d) -> dict_set k v d = (d ++ [(k, v)])%list.
Proof.
  induction d as [|[k0 v0] d IH]; simpl; intros H; [reflexivity|].
  destruct (String.eqb_spec k k0) as [->|_]; [tauto|].
  rewrite IH; tauto.
Qed.

End DictComprehension.

Lemma dict_get_named (name_of : string -> string) (k : string) (l : list string) :
  dict_get k (map (fun rt => (name_of rt, rt)) l) =
  find (fun rt => String.eqb k (name_of rt)) l.
Proof.
  induction l as [|rt l IH]; simpl; [reflexivity|].
  destruct (String.eqb k (name_of rt)); [reflexivity | exact IH].
Qed.

Lemma enum_call_Raise (E : list member) (v : string) (e : exn) :
  enum_call E v = Raise e -> e = ValueError.
Proof.
  unfold enum_call. destruct (find _ E); [discriminate | now intros [= <-]].
Qed.

(** X1.  [RunType(v)] returns exactly when [v] is the last run type of
    [_RUN_TYPES] with its member name, and then returns the member of that
    name and value; in every other case (not a run type, or replaced in
    the dict comprehension by a later run type of the same member name) it
    raises [ValueError]. *)
Theorem RunType_call_last (table : rule_table) (v : string) :
  enum_call (Vasp.RunType table) v =
  match Extra.last_with_name table v with
  | Some rt =>
      if String.eqb rt v
      then Ok (Member "RunType" (Vasp.run_name v) v)
      else Raise ValueError
  | None => Raise ValueError
  end.
Proof.
  set (pairs := map (fun rt => (Vasp.run_name rt, rt)) (Vasp._RUN_TYPES table)).
  assert (Hget : dict_get (Vasp.run_name v) (dict_from pairs) =
                 Extra.last_with_name table v).
  { rewrite dict_get_from. unfold pairs, Extra.last_with_name.
    rewrite <- map_rev. apply dict_get_named. }
  assert (Hin : forall m, enum_call (Vasp.RunType table) v = Ok m ->
                          dict_get (Vasp.run_name v) (dict_from pairs) = Some v).
  { intros m Hm. pose proof (RunType_call table v m Hm) as ->.
    apply enum_call_Ok in Hm. destruct Hm as [Hm _].
    apply Enum_In in Hm. destruct Hm as [Hm _]. simpl in Hm.
    apply In_dict_get; [apply dict_from_NoDup | exact Hm]. }
  rewrite <- Hget.
  destruct (dict_get (Vasp.run_name v) (dict_from pairs)) as [rt|] eqn:Hd.
  - destruct (String.eqb_spec rt v) as [->|Hne].
    + apply dict_get_In in Hd.
      destruct (enum_call_In (Vasp.RunType table)
                  (Member "RunType" (Vasp.run_name v) v)) as [m Hm].
      * apply In_Enum. exact Hd.
      * simpl in Hm. rewrite Hm. now rewrite (RunType_call table v m Hm).
    + destruct (enum_call (Vasp.RunType table) v) as [m|e] eqn:Hc.
      * specialize (Hin m eq_refl). congruence.
      * now rewrite (enum_call_Raise _ _ _ Hc).
  - destruct (enum_call (Vasp.RunType table) v) as [m|e] eqn:Hc.
    + specialize (Hin m eq_refl). discriminate.
    + now rewrite (enum_call_Raise _ _ _ Hc).
Qed.

Section VaspRunTypeMore.

Variable table : rule_table.

Lemma scan_classes_app (parameters : dict value) (before after : list string) :
  (forall c, In c before ->
     Spec.satisfies table parameters c = false /\ dict_get c table <> None) ->
  Vasp.scan_classes table parameters (before ++ after) =
  Vasp.scan_classes table parameters after.
Proof.
  induction before as [|c0 before IH]; intros H; [reflexivity|].
  destruct (H c0 (or_introl eq_refl)) as [Hs Hd]. simpl. unfold dict_item.
  destruct (dict_get c0 table) as [rules|] eqn:Hc; [|congruence]. simpl.
  apply (satisfies_first_rule table parameters c0 rules Hc) in Hs. rewrite Hs.
  apply IH. intros c Hin. apply H. now right.
Qed.

(** X2.  When a class of the priority order is not declared in the table
    and no class before it has a matching rule, run_type raises
    [KeyError], whatever the classes after it hold. *)
Theorem vasp_run_type_missing_class (parameters : dict value)
    (before after : list string) (c : string) :
  Vasp.class_order = (before ++ c :: after)%list ->
  dict_get c table = None ->
  (forall c', In c' before ->
     Spec.satisfies table parameters c' = false /\ dict_get c' table <> None) ->
  Vasp.run_type table parameters = Raise KeyError.
Proof.
  intros Horder Hc Hbefore. unfold Vasp.run_type. rewrite Horder.
  rewrite (scan_classes_app parameters before (c :: after) Hbefore).
  simpl. unfold dict_item. now rewrite Hc.
Qed.

Lemma rule_matches_ext (p1 p2 ps : dict value) :
  (forall k v, In (k, v) ps -> dict_get k p1 = dict_get k p2) ->
  rule_matches p1 ps = rule_matches p2 ps.
Proof.
  unfold rule_matches. induction ps as [|[k v] ps IH]; simpl; intros H;
    [reflexivity|].
  unfold dict_get_default at 1 3. rewrite (H k v (or_introl eq_refl)).
  f_equal. apply IH. intros k' v' Hin. apply (H k' v'). now right.
Qed.

(** X3.  The run type depends on the parameters only through the keys that
    some rule of the four classes requires and through the truth value of
    LDAU: two dicts that agree on those get the same result. *)
Theorem vasp_run_type_tested_keys (p1 p2 : dict value) :
  Extra.agree_on_tested table p1 p2 ->
  py_truthy (dict_get_default "LDAU" (VBool false) p1) =
  py_truthy (dict_get_default "LDAU" (VBool false) p2) ->
  Vasp.run_type table p1 = Vasp.run_type table p2.
Proof.
  intros Hag Hu. unfold Vasp.run_type, Vasp.is_hubbard. rewrite Hu.
  rewrite (vasp_scan_ext table p1 p2 Vasp.class_order); [reflexivity|].
  intros c rules [st ps] Hc Hr Hin. simpl. apply rule_matches_ext.
  intros k v Hkv. exact (Hag c rules st ps k v Hc Hr Hin Hkv).
Qed.

Lemma first_rule_sound (parameters : dict value) (rules : dict (dict value))
    (st : string) :
  Vasp.first_rule parameters rules = Some st ->
  exists ps, In (st, ps) rules /\ rule_matches parameters ps = true.
Proof.
  intros H. destruct (first_rule_Some parameters rules st H)
    as (before & ps & after & -> & Hm & _).
  exists ps. split; [|exact Hm]. apply in_or_app. right. now left.
Qed.

Lemma scan_classes_sound (parameters : dict value) (classes : list string)
    (r : option string) :
  Vasp.scan_classes table parameters classes = Ok r ->
  match r with
  | Some st =>
      exists c rules ps,
        In c classes /\ dict_get c table = Some rules /\
        In (st, ps) rules /\ rule_matches parameters ps = true
  | None =>
      forallb (fun c => negb (Spec.satisfies table parameters c)) classes = true
  end.
Proof.
  revert r. induction classes as [|c0 classes IH]; simpl; intros r H.
  - now injection H as <-.
  - unfold dict_item in H.
    destruct (dict_get c0 table) as [rules|] eqn:Hc; [|discriminate].
    simpl in H. destruct (Vasp.first_rule parameters rules) as [st|] eqn:Hf.
    + injection H as <-. destruct (first_rule_sound _ _ _ Hf) as (ps & Hin & Hm).
      exists c0, rules, ps. repeat split; try assumption. now left.
    + apply (satisfies_first_rule table parameters c0 rules Hc) in Hf.
      specialize (IH r H). destruct r as [st|].
      * destruct IH as (c & rules' & ps & Hin & Hd & Hr & Hm).
        exists c, rules', ps. repeat split; try assumption. now right.
      * now rewrite Hf, IH.
Qed.

(** X4.  What run_type returns is sound: the value of the member is the
    Hubbard suffix after either the name of a special type of one of the
    four classes whose required parameters all match, or after LDA when no
    rule of the four classes matches. *)
Theorem vasp_run_type_sound (parameters : dict value) (m : member) :
  Vasp.run_type table parameters = Ok m ->
  (exists c rules st ps,
     In c Vasp.class_order /\ dict_get c table = Some rules /\
     In (st, ps) rules /\ rule_matches parameters ps = true /\
     value_ m = st ++ Vasp.is_hubbard parameters)
  \/
  (Spec.unmatched table parameters = true /\
   value_ m = "LDA" ++ Vasp.is_hubbard parameters).
Proof.
  intros H. unfold Vasp.run_type in H. apply bind_Ok in H.
  destruct H as (r & Hscan & Hcall).
  pose proof (scan_classes_sound parameters Vasp.class_order r Hscan) as Hr.
  destruct r as [st|]; apply enum_call_Ok in Hcall; destruct Hcall as [_ Hv].
  - left. destruct Hr as (c & rules & ps & Hin & Hd & Hrule & Hm).
    exists c, rules, st, ps. now repeat split.
  - right. now split.
Qed.

End VaspRunTypeMore.

Lemma vasp_run_type_missing_class_witness :
  Vasp.run_type Extra.table_without_HF Sample.pbe_parameters = Raise KeyError.
Proof.
  apply (vasp_run_type_missing_class Extra.table_without_HF Sample.pbe_parameters
           [] ["VDW"; "METAGGA"; "GGA"] "HF"); try reflexivity.
  intros c' [].
Defined.

Lemma vasp_run_type_tested_keys_witness :
  Vasp.run_type Sample.vasp_table Extra.pbe_parameters_noise =
  Vasp.run_type Sample.vasp_table Sample.pbe_parameters.
Proof.
  apply (vasp_run_type_tested_keys Sample.vasp_table
           Extra.pbe_parameters_noise Sample.pbe_parameters); [|reflexivity].
  intros c rules st ps k v Hc Hr Hin Hkv.
  simpl in Hc. destruct Hc as [<-|[<-|[<-|[<-|[]]]]];
    injection Hr as <-; simpl in Hin;
    repeat (destruct Hin as [[= <- <-]|Hin]; [|]); try contradiction;
    simpl in Hkv;
    repeat (destruct Hkv as [[= <- <-]|Hkv]; [reflexivity|]); contradiction.
Defined.

Lemma vasp_run_type_sound_witness :
  (exists c rules st ps,
     In c Vasp.class_order /\ dict_get c Sample.vasp_table = Some rules /\
     In (st, ps) rules /\ rule_matches Sample.hybrid_parameters ps = true /\
     value_ (Member "RunType" "PBE0" "PBE0") =
       st ++ Vasp.is_hubbard Sample.hybrid_parameters)
  \/
  (Spec.unmatched Sample.vasp_table Sample.hybrid_parameters = true /\
   value_ (Member "RunType" "PBE0" "PBE0") =
     "LDA" ++ Vasp.is_hubbard Sample.hybrid_parameters).
Proof.
  apply (vasp_run_type_sound Sample.vasp_table Sample.hybrid_parameters
           (Member "RunType" "PBE0" "PBE0")).
  reflexivity.
Defined.

(* ===================================================================== *)
(** ** Further properties: the VASP task type *)
(* ===================================================================== *)

Section VaspTaskType.

Variable inputs : dict value.
Variable incar : dict value.
Hypothesis incar_dict : dict_get_default "incar" (VDict []) inputs = VDict incar.

Lemma count_positive (f : value -> bool) (xs : list value) :
  (0 <? Z.of_nat (List.length (filter f xs)))%Z = existsb f xs.
Proof.
  induction xs as [|x xs IH]; simpl; [reflexivity|].
  destruct (f x); simpl; [|exact IH].
  apply Z.ltb_lt. lia.
Qed.

(** X5.  With ICHARG above 10 and a list of k-point labels, the task type
    is NSCF Line when some label is not [None] and NSCF Uniform otherwise,
    whatever the other INCAR flags are. *)
Theorem vasp_task_type_nscf (kpoints : dict value) (labels : list value) :
  py_gt_int (dict_get_default "ICHARG" (VInt 0) incar) 10 = Ok true ->
  dict_get "kpoints" inputs = Some (VDict kpoints) ->
  dict_get "labels" kpoints = Some (VList labels) ->
  Vasp.task_type inputs =
  Ok (if existsb (fun x => negb (is_none x)) labels
      then Member "TaskType" "NSCF_Line" "NSCF Line"
      else Member "TaskType" "NSCF_Uniform" "NSCF Uniform").
Proof.
  intros Hicharg Hk Hl. unfold Vasp.task_type, Vasp.task_labels.
  rewrite incar_dict. cbn [py_get bind]. rewrite Hicharg. cbn [bind].
  unfold Vasp.num_kpt_labels, dict_get_default. rewrite Hk.
  destruct kpoints as [|kv kpoints']; [discriminate|].
  cbn [py_or py_truthy py_get bind]. unfold dict_get_default. rewrite Hl.
  assert (Hor : py_or (VList labels) (VList []) = VList labels)
    by (now destruct labels).
  rewrite Hor. cbn [py_iter bind try_wrap]. rewrite count_positive.
  destruct (existsb _ labels); reflexivity.
Qed.

(** X6.  With ICHARG above 10, task_type returns NSCF Line or NSCF
    Uniform, or raises the [Exception] that wraps the failure to count the
    k-point labels; the other INCAR flags are not read. *)
Theorem vasp_task_type_nscf_outcomes :
  py_gt_int (dict_get_default "ICHARG" (VInt 0) incar) 10 = Ok true ->
  Vasp.task_type inputs = Ok (Member "TaskType" "NSCF_Line" "NSCF Line") \/
  Vasp.task_type inputs = Ok (Member "TaskType" "NSCF_Uniform" "NSCF Uniform") \/
  exists cause, Vasp.num_kpt_labels inputs = Raise cause /\
                Vasp.task_type inputs = Raise (Exception_ cause).
Proof.
  intros Hicharg. unfold Vasp.task_type, Vasp.task_labels.
  rewrite incar_dict. cbn [py_get bind]. rewrite Hicharg. cbn [bind].
  destruct (Vasp.num_kpt_labels inputs) as [num|cause]; cbn [try_wrap bind].
  - destruct (0 <? num)%Z; [left | right; left]; reflexivity.
  - right. right. now exists cause.
Qed.

(** X7.  With ICHARG not above 10 and LEPSILON set, the task type is
    DFPT Dielectric when IBRION is above 6 and Dielectric otherwise,
    whatever LCHIMAG, LEFG, NSW and ISIF are. *)
Theorem vasp_task_type_dielectric (dfpt : bool) :
  py_gt_int (dict_get_default "ICHARG" (VInt 0) incar) 10 = Ok false ->
  py_truthy (dict_get_default "LEPSILON" (VBool false) incar) = true ->
  py_gt_int (dict_get_default "IBRION" (VInt 0) incar) 6 = Ok dfpt ->
  Vasp.task_type inputs =
  Ok (if dfpt
      then Member "TaskType" "DFPT_Dielectric" "DFPT Dielectric"
      else Member "TaskType" "Dielectric" "Dielectric").
Proof.
  intros Hicharg Hleps Hibrion. unfold Vasp.task_type, Vasp.task_labels.
  rewrite incar_dict. cbn [py_get bind]. rewrite Hicharg. cbn [bind].
  rewrite Hleps, Hibrion. cbn [bind]. now destruct dfpt.
Qed.

(** X8.  When none of the five earlier branches applies and NSW equals 0,
    the task type is Static, whatever ISIF and the sign of IBRION are. *)
Theorem vasp_task_type_static :
  py_gt_int (dict_get_default "ICHARG" (VInt 0) incar) 10 = Ok false ->
  py_truthy (dict_get_default "LEPSILON" (VBool false) incar) = false ->
  py_gt_int (dict_get_default "IBRION" (VInt 0) incar) 6 = Ok false ->
  py_truthy (dict_get_default "LCHIMAG" (VBool false) incar) = false ->
  py_truthy (dict_get_default "LEFG" (VBool false) incar) = false ->
  py_eq (dict_get_default "NSW" (VInt 1) incar) (VInt 0) = true ->
  Vasp.task_type inputs = Ok (Member "TaskType" "Static" "Static").
Proof.
  intros Hicharg Hleps Hibrion Hlchi Hlefg Hnsw.
  unfold Vasp.task_type, Vasp.task_labels.
  rewrite incar_dict. cbn [py_get bind]. rewrite Hicharg. cbn [bind].
  rewrite Hleps, Hibrion. cbn [bind]. now rewrite Hlchi, Hlefg, Hnsw.
Qed.

(** X9.  When no earlier branch applies, NSW is not 0, ISIF is present and
    IBRION is positive, the task type is Structure Optimization for ISIF
    equal to 3 and Deformation for ISIF equal to 2. *)
Theorem vasp_task_type_relaxation (isif : value) :
  py_gt_int (dict_get_default "ICHARG" (VInt 0) incar) 10 = Ok false ->
  py_truthy (dict_get_default "LEPSILON" (VBool false) incar) = false ->
  py_gt_int (dict_get_default "IBRION" (VInt 0) incar) 6 = Ok false ->
  py_truthy (dict_get_default "LCHIMAG" (VBool false) incar) = false ->
  py_truthy (dict_get_default "LEFG" (VBool false) incar) = false ->
  py_eq (dict_get_default "NSW" (VInt 1) incar) (VInt 0) = false ->
  dict_get "ISIF" incar = Some isif ->
  py_gt_int (dict_get_default "IBRION" (VInt 0) incar) 0 = Ok true ->
  (py_eq isif (VInt 3) = true ->
   Vasp.task_type inputs =
     Ok (Member "TaskType" "Structure_Optimization" "Structure Optimization")) /\
  (py_eq isif (VInt 3) = false -> py_eq isif (VInt 2) = true ->
   Vasp.task_type inputs = Ok (Member "TaskType" "Deformation" "Deformation")).
Proof.
  intros Hicharg Hleps Hibrion Hlchi Hlefg Hnsw Hisif Hpos.
  unfold Vasp.task_type, Vasp.task_labels.
  rewrite incar_dict. cbn [py_get bind]. rewrite Hicharg. cbn [bind].
  rewrite Hleps, Hibrion. cbn [bind]. rewrite Hlchi, Hlefg, Hnsw.
  assert (H2 : dict_get_default "ISIF" (VInt 2) incar = isif)
    by (unfold dict_get_default; now rewrite Hisif).
  assert (H3 : dict_get_default "ISIF" (VInt 3) incar = isif)
    by (unfold dict_get_default; now rewrite Hisif).
  rewrite H2, H3, Hpos.
  split.
  - intros ->. reflexivity.
  - intros -> ->. reflexivity.
Qed.

(** X10.  The two relaxation tests read ISIF with different defaults (2
    for the test against 3, 3 for the test against 2), so an INCAR without
    ISIF is never given the task type Structure Optimization or
    Deformation. *)
Theorem vasp_task_type_without_isif (m : member) :
  dict_get "ISIF" incar = None ->
  Vasp.task_type inputs = Ok m ->
  value_ m <> "Structure Optimization" /\ value_ m <> "Deformation".
Proof.
  intros Hisif Hm. unfold Vasp.task_type in Hm. apply bind_Ok in Hm.
  destruct Hm as (labels & Hlabels & Hm). apply enum_call_Ok in Hm.
  destruct Hm as [_ ->]. revert Hlabels. unfold Vasp.task_labels.
  rewrite incar_dict. cbn [py_get bind].
  assert (H2 : dict_get_default "ISIF" (VInt 2) incar = VInt 2)
    by (unfold dict_get_default; now rewrite Hisif).
  assert (H3 : dict_get_default "ISIF" (VInt 3) incar = VInt 3)
    by (unfold dict_get_default; now rewrite Hisif).
  rewrite H2, H3.
  change (py_eq (VInt 2) (VInt 3)) with false.
  change (py_eq (VInt 3) (VInt 2)) with false.
  repeat (cbn [bind try_wrap];
          match goal with
          | |- context [py_gt_int ?v ?n] =>
              destruct (py_gt_int v n) as [[|]|?]
          | |- context [py_truthy ?v] => destruct (py_truthy v)
          | |- context [py_eq ?v ?w] => destruct (py_eq v w)
          | |- context [try_wrap ?r] => destruct r as [?|?]
          | |- context [(0 <? ?n)%Z] => destruct (0 <? n)%Z
          end);
    cbn; intros [= <-] || discriminate; split; discriminate.
Qed.

End VaspTaskType.

Lemma vasp_task_type_nscf_witness :
  Vasp.task_type Extra.nscf_inputs =
  Ok (if existsb (fun x => negb (is_none x)) [VStr "G"; VStr "X"; VNone; VStr "M"]
      then Member "TaskType" "NSCF_Line" "NSCF Line"
      else Member "TaskType" "NSCF_Uniform" "NSCF Uniform").
Proof.
  apply (vasp_task_type_nscf Extra.nscf_inputs
           [("ICHARG", VInt 11); ("NSW", VInt 0)] eq_refl
           [("labels", VList [VStr "G"; VStr "X"; VNone; VStr "M"])]);
    reflexivity.
Defined.

Lemma vasp_task_type_nscf_outcomes_witness :
  Vasp.task_type Extra.nscf_broken_inputs =
    Ok (Member "TaskType" "NSCF_Line" "NSCF Line") \/
  Vasp.task_type Extra.nscf_broken_inputs =
    Ok (Member "TaskType" "NSCF_Uniform" "NSCF Uniform") \/
  exists cause, Vasp.num_kpt_labels Extra.nscf_broken_inputs = Raise cause /\
                Vasp.task_type Extra.nscf_broken_inputs = Raise (Exception_ cause).
Proof.
  apply (vasp_task_type_nscf_outcomes Extra.nscf_broken_inputs
           [("ICHARG", VInt 11)] eq_refl).
  reflexivity.
Defined.

Lemma vasp_task_type_dielectric_witness :
  Vasp.task_type [("incar", VDict Extra.dielectric_incar)] =
  Ok (Member "TaskType" "DFPT_Dielectric" "DFPT Dielectric").
Proof.
  apply (vasp_task_type_dielectric [("incar", VDict Extra.dielectric_incar)]
           Extra.dielectric_incar eq_refl true); reflexivity.
Defined.

Lemma vasp_task_type_static_witness :
  Vasp.task_type [("incar", VDict Extra.static_incar)] =
  Ok (Member "TaskType" "Static" "Static").
Proof.
  apply (vasp_task_type_static [("incar", VDict Extra.static_incar)]
           Extra.static_incar eq_refl); reflexivity.
Defined.

Lemma vasp_task_type_relaxation_witness :
  (py_eq (VInt 3) (VInt 3) = true ->
   Vasp.task_type [("incar", VDict Extra.relax_incar)] =
     Ok (Member "TaskType" "Structure_Optimization" "Structure Optimization")) /\
  (py_eq (VInt 3) (VInt 3) = false -> py_eq (VInt 3) (VInt 2) = true ->
   Vasp.task_type [("incar", VDict Extra.relax_incar)] =
     Ok (Member "TaskType" "Deformation" "Deformation")).
Proof.
  apply (vasp_task_type_relaxation [("incar", VDict Extra.relax_incar)]
           Extra.relax_incar eq_refl (VInt 3)); reflexivity.
Defined.

Lemma vasp_task_type_without_isif_witness :
  value_ (Member "TaskType" "Static" "Static") <> "Structure Optimization" /\
  value_ (Member "TaskType" "Static" "Static") <> "Deformation".
Proof.
  apply (vasp_task_type_without_isif Sample.static_inputs [("NSW", VInt 0)]
           eq_refl (Member "TaskType" "Static" "Static")); reflexivity.
Defined.

Lemma py_gt_int_Raise (v : value) (n : Z) (e : exn) :
  py_gt_int v n = Raise e -> e = TypeError.
Proof. unfold py_gt_int. destruct (as_num v); [discriminate | now intros [= <-]]. Qed.

(** The chain builds one of eleven label lists, and fails only with an
    [AttributeError] (the INCAR is not a dict), a [TypeError] (a flag that
    cannot be compared with an int) or the wrapping [Exception]. *)
Lemma vasp_task_labels_range (inputs : dict value) :
  match Vasp.task_labels inputs with
  | Ok labels => In labels Extra.vasp_label_lists
  | Raise e =>
      e = AttributeError \/ e = TypeError \/ exists cause, e = Exception_ cause
  end.
Proof.
  unfold Vasp.task_labels.
  destruct (dict_get_default "incar" (VDict []) inputs) as [ | | | | | |incar];
    try (cbn; now left).
  cbn [py_get bind].
  repeat (cbn [bind try_wrap];
          match goal with
          | |- context [py_gt_int ?v ?n] =>
              let H := fresh "H" in
              destruct (py_gt_int v n) as [[|]|?] eqn:H;
              [ | | apply py_gt_int_Raise in H; subst ]
          | |- context [py_truthy ?v] => destruct (py_truthy v)
          | |- context [py_eq ?v ?w] => destruct (py_eq v w)
          | |- context [try_wrap ?r] => destruct r as [?|?]
          | |- context [(0 <? ?n)%Z] => destruct (0 <? n)%Z
          end);
    cbn; eauto 12.
Qed.

(** X11.  task_type raises [ValueError] exactly when the chain builds no
    label: every label list that the chain can build but the empty one is
    a value of [TaskType]. *)
Theorem vasp_task_type_value_error (inputs : dict value) :
  Vasp.task_type inputs = Raise ValueError <-> Vasp.task_labels inputs = Ok [].
Proof.
  split; [|apply vasp_task_type_empty].
  pose proof (vasp_task_labels_range inputs) as Hrange.
  unfold Vasp.task_type.
  destruct (Vasp.task_labels inputs) as [labels|e]; cbn [bind].
  - unfold Extra.vasp_label_lists in Hrange. simpl in Hrange.
    repeat (destruct Hrange as [<-|Hrange]; [try reflexivity; discriminate|]).
    contradiction.
  - intros [= ->]. destruct Hrange as [H|[H|[cause H]]]; discriminate.
Qed.

(* ===================================================================== *)
(** ** Further properties: the CP2K classifiers *)
(* ===================================================================== *)

Section Cp2kMore.

Variable table : rule_table.
Variables RunType TaskType CalcType : list member.

Lemma cp2k_scan_Ok (parameters : dict value) :
  exists r, Cp2k.scan_classes table parameters (map fst table) = Ok r /\
            (r = None <->
             forallb (fun c => negb (Spec.satisfies table parameters c))
               (map fst table) = true) /\
            (forall c, r = Some c -> Spec.satisfies table parameters c = true).
Proof.
  destruct (cp2k_scan_spec table parameters (map fst table)
              (fun c => dict_get_declared c table))
    as [[Hnone Hall]|(k & c & Hk & Hc & _ & Hscan)].
  - exists None. repeat split; try discriminate; try assumption.
    intros _. apply forallb_forall. intros c Hin. now rewrite (Hall c Hin).
  - exists (Some c). repeat split; try discriminate; try assumption.
    + intros H. rewrite forallb_forall in H.
      specialize (H c (nth_error_In _ _ Hk)). now rewrite Hc in H.
    + now intros c' [= <-].
Qed.

(** X12.  Once the parameters are built, the CP2K run_type returns the
    unset result exactly when no class of the table has a matching rule:
    there is no fallback run type. *)
Theorem cp2k_run_type_unset (dft parameters : dict value) :
  Cp2k.build_parameters dft = Ok parameters ->
  (Cp2k.run_type table RunType dft = Ok None <->
   forallb (fun c => negb (Spec.satisfies table parameters c)) (map fst table)
   = true).
Proof.
  intros Hb. unfold Cp2k.run_type. rewrite Hb. cbn [bind].
  destruct (cp2k_scan_Ok parameters) as (r & -> & Hnone & _). cbn [bind].
  destruct r as [c|].
  - split.
    + destruct (enum_call RunType (c ++ Cp2k.is_hubbard dft)); discriminate.
    + intros H. apply Hnone in H. discriminate.
  - split; [intros _; now apply Hnone | reflexivity].
Qed.

Lemma cp2k_build_parameters_Raise (dft : dict value) (e : exn) :
  Cp2k.build_parameters dft = Raise e ->
  e = AttributeError \/ e = TypeError \/ e = KeyError.
Proof.
  unfold Cp2k.build_parameters.
  destruct (dict_get_default "hfx" (VDict []) dft) as [ | | | | | |hfx];
    try (cbn; intros [= <-]; now left).
  cbn [py_get bind].
  change (dict_get_default "FUNCTIONAL" VNone
            (("FUNCTIONAL", dict_get_default "functional" VNone dft) :: _))
    with (dict_get_default "functional" VNone dft).
  destruct (dict_get_default "functional" VNone dft) as [ | | | |s|xs|d];
    try (cbn; intros [= <-]; right; now left); cbn [py_len bind].
  - destruct (Z.of_nat (String.length s) =? 1)%Z eqn:Hn; [|discriminate].
    destruct s; [discriminate Hn | discriminate].
  - destruct (Z.of_nat (List.length xs) =? 1)%Z eqn:Hn; [|discriminate].
    destruct xs; [discriminate Hn | discriminate].
  - destruct (Z.of_nat (List.length d) =? 1)%Z; [|discriminate].
    cbn. intros [= <-]. right. now right.
Qed.

(** X13.  The CP2K run_type raises only while it builds its parameters
    (an [AttributeError], a [TypeError] or a [KeyError], before any rule
    is read), or with the [ValueError] of [RunType] when the name of the
    matching class, with its suffix, is no value of the enumeration; the
    loop over the table does not raise. *)
Theorem cp2k_run_type_errors (dft : dict value) (e : exn) :
  Cp2k.run_type table RunType dft = Raise e ->
  (Cp2k.build_parameters dft = Raise e /\
   (e = AttributeError \/ e = TypeError \/ e = KeyError))
  \/
  (e = ValueError /\
   exists parameters c,
     Cp2k.build_parameters dft = Ok parameters /\
     Spec.satisfies table parameters c = true /\
     enum_call RunType (c ++ Cp2k.is_hubbard dft) = Raise ValueError).
Proof.
  unfold Cp2k.run_type.
  destruct (Cp2k.build_parameters dft) as [parameters|e0] eqn:Hb; cbn [bind].
  - destruct (cp2k_scan_Ok parameters) as (r & -> & _ & Hsome). cbn [bind].
    destruct r as [c|]; [|discriminate].
    destruct (enum_call RunType (c ++ Cp2k.is_hubbard dft)) as [m|e1] eqn:Hc;
      [discriminate|].
    cbn [bind]. intros [= <-]. right.
    pose proof (enum_call_Raise _ _ _ Hc) as ->.
    split; [reflexivity|]. exists parameters, c. repeat split; auto.
  - intros [= <-]. left. split; [reflexivity|].
    eapply cp2k_build_parameters_Raise; eassumption.
Qed.

(** X14.  A functional given as a one-element list is classified like its
    element, for an element that is a name or that has a length other
    than 1. *)
Theorem cp2k_run_type_unwrap (d1 d2 : dict value) (x : value) :
  Spec.agree_except "functional" d1 d2 ->
  dict_get "functional" d1 = Some (VList [x]) ->
  dict_get "functional" d2 = Some x ->
  ((exists s, x = VStr s) \/ (exists n, py_len x = Ok n /\ n <> 1%Z)) ->
  Cp2k.run_type table RunType d1 = Cp2k.run_type table RunType d2.
Proof.
  intros Hag H1 H2 Hx.
  assert (Hb : Cp2k.build_parameters d1 = Cp2k.build_parameters d2).
  { destruct Hx as [[s ->]|(n & Hlen & Hn)].
    - rewrite (cp2k_parameters_of_name s d1 (or_intror H1)),
              (cp2k_parameters_of_name s d2 (or_introl H2)).
      unfold dict_get_default. now rewrite (Hag "hfx") by discriminate.
    - unfold Cp2k.build_parameters.
      replace (dict_get_default "functional" VNone d1) with (VList [x])
        by (unfold dict_get_default; now rewrite H1).
      replace (dict_get_default "functional" VNone d2) with x
        by (unfold dict_get_default; now rewrite H2).
      replace (dict_get_default "hfx" (VDict []) d1)
        with (dict_get_default "hfx" (VDict []) d2)
        by (unfold dict_get_default; now rewrite (Hag "hfx") by discriminate).
      destruct (py_get _ "Interaction_Potential" VNone) as [potential|e];
        [|reflexivity].
      destruct (py_get _ "FRACTION" (VInt 0)) as [fraction|e]; [|reflexivity].
      cbn [bind].
      change (dict_get_default "FUNCTIONAL" VNone (("FUNCTIONAL", x) :: _)) with x.
      rewrite Hlen. cbn [bind].
      apply Z.eqb_neq in Hn. rewrite Hn. reflexivity. }
  unfold Cp2k.run_type, Cp2k.is_hubbard, dict_get_default.
  now rewrite Hb, (Hag "dft_plus_u") by discriminate.
Qed.

(** X15.  The CP2K task_type reads the declared run type without regard
    to letter case. *)
Theorem cp2k_task_type_case (i1 i2 : dict value) (a b : string) :
  dict_get "Run_type" i1 = Some (VStr a) ->
  dict_get "Run_type" i2 = Some (VStr b) ->
  Spec.ci_equal a b ->
  Cp2k.task_type TaskType i1 = Cp2k.task_type TaskType i2.
Proof.
  intros H1 H2 Hab. apply upper_ci_equal in Hab.
  unfold Cp2k.task_type, dict_get_default. now rewrite H1, H2, Hab.
Qed.

(** X16.  When the CP2K calc_type returns, run_type has returned a member
    and task_type a member on the same inputs, and the value returned is
    the value of the first, a space and the value of the second. *)
Theorem cp2k_calc_type_value (inputs : dict value) (m : member) :
  Cp2k.calc_type table RunType TaskType CalcType inputs = Ok m ->
  exists rt tt,
    Cp2k.run_type table RunType inputs = Ok (Some rt) /\
    Cp2k.task_type TaskType inputs = Ok tt /\
    value_ m = value_ rt ++ " " ++ value_ tt.
Proof.
  intros H. unfold Cp2k.calc_type in H.
  apply bind_Ok in H. destruct H as (r & Hr & H).
  apply bind_Ok in H. destruct H as (v & Hv & H).
  apply bind_Ok in H. destruct H as (tt & Ht & H).
  destruct r as [rt|]; [|discriminate]. injection Hv as <-.
  apply enum_call_Ok in H. destruct H as [_ Hm].
  exists rt, tt. now repeat split.
Qed.

End Cp2kMore.

Lemma cp2k_run_type_unset_witness :
  Cp2k.run_type Sample.cp2k_table Sample.cp2k_RunType Sample.cp2k_unknown = Ok None <->
  forallb
    (fun c =>
       negb (Spec.satisfies Sample.cp2k_table
               [ ("FUNCTIONAL", VStr "XYZ"); ("INTERACTION_POTENTIAL", VNone);
                 ("FRACTION", VInt 0) ] c))
    (map fst Sample.cp2k_table) = true.
Proof.
  apply (cp2k_run_type_unset Sample.cp2k_table Sample.cp2k_RunType
           Sample.cp2k_unknown). reflexivity.
Defined.

Lemma cp2k_run_type_errors_witness :
  (Cp2k.build_parameters [("hfx", VNone)] = Raise AttributeError /\
   (AttributeError = AttributeError \/ AttributeError = TypeError \/
    AttributeError = KeyError))
  \/
  (AttributeError = ValueError /\
   exists parameters c,
     Cp2k.build_parameters [("hfx", VNone)] = Ok parameters /\
     Spec.satisfies Sample.cp2k_table parameters c = true /\
     enum_call Sample.cp2k_RunType (c ++ Cp2k.is_hubbard [("hfx", VNone)]) =
       Raise ValueError).
Proof.
  apply (cp2k_run_type_errors Sample.cp2k_table Sample.cp2k_RunType
           [("hfx", VNone)] AttributeError). reflexivity.
Defined.

Lemma cp2k_run_type_unwrap_witness :
  Cp2k.run_type Sample.cp2k_table Sample.cp2k_RunType Sample.cp2k_pbe =
  Cp2k.run_type Sample.cp2k_table Sample.cp2k_RunType Extra.cp2k_pbe_scalar.
Proof.
  apply (cp2k_run_type_unwrap Sample.cp2k_table Sample.cp2k_RunType
           Sample.cp2k_pbe Extra.cp2k_pbe_scalar (VStr "PBE")).
  - intros k Hk. simpl.
    destruct (String.eqb_spec k "functional"); [contradiction | reflexivity].
  - reflexivity.
  - reflexivity.
  - left. now exists "PBE".
Defined.

Lemma cp2k_task_type_case_witness :
  Cp2k.task_type Sample.cp2k_TaskType Extra.cp2k_geo_lower =
  Cp2k.task_type Sample.cp2k_TaskType Extra.cp2k_geo_upper.
Proof.
  apply (cp2k_task_type_case Sample.cp2k_TaskType
           Extra.cp2k_geo_lower Extra.cp2k_geo_upper "geo_opt" "GEO_OPT");
    try reflexivity.
  apply upper_ci_equal. reflexivity.
Defined.

Lemma cp2k_calc_type_value_witness :
  exists rt tt,
    Cp2k.run_type Sample.cp2k_table Sample.cp2k_RunType Sample.cp2k_pbe =
      Ok (Some rt) /\
    Cp2k.task_type Sample.cp2k_TaskType Sample.cp2k_pbe = Ok tt /\
    value_ (Member "CalcType" "GGA_Static" "GGA Static") =
      value_ rt ++ " " ++ value_ tt.
Proof.
  apply (cp2k_calc_type_value Sample.cp2k_table Sample.cp2k_RunType
           Sample.cp2k_TaskType Sample.cp2k_CalcType Sample.cp2k_pbe
           (Member "CalcType" "GGA_Static" "GGA Static")).
  reflexivity.
Defined.

(* ===================================================================== *)
(** ** Further properties: jsanitize *)
(* ===================================================================== *)

Section ComprehensionLemmas.

Context {A B : Type}.


Lemma comprehension_ext (f g : A -> result B) (xs : list A) :
  Forall (fun x => f x = g x) xs -> comprehension f xs = comprehension g xs.
Proof. induction 1 as [|x xs Hx _ IH]; simpl; [reflexivity | now rewrite Hx, IH]. Qed.

Lemma comprehension_map (f : A -> result B) (h : A -> B) (xs : list A) :
  Forall (fun x => f x = Ok (h x)) xs -> comprehension f xs = Ok (map h xs).
Proof. induction 1 as [|x xs Hx _ IH]; simpl; [reflexivity | now rewrite Hx, IH]. Qed.

End ComprehensionLemmas.

Lemma distinct_NoDup (l : list string) : Extra.distinct l = true <-> NoDup l.
Proof.
  induction l as [|x l IH]; simpl.
  - split; [constructor | reflexivity].
  - rewrite andb_true_iff, negb_true_iff, IH. split.
    + intros [Hx Hl]. constructor; [|exact Hl]. intros Hin.
      assert (existsb (String.eqb x) l = true)
        by (apply existsb_exists; exists x; split;
            [exact Hin | apply String.eqb_refl]).
      congruence.
    + intros H. inversion H as [|? ? Hx Hl]; subst. split; [|exact Hl].
      destruct (existsb (String.eqb x) l) eqn:He; [|reflexivity].
      apply existsb_exists in He. destruct He as (y & Hy & Hxy).
      apply String.eqb_eq in Hxy. now subst.
Qed.

Lemma dict_from_acc_distinct {V : Type} (pairs acc : list (string * V)) :
  NoDup (map fst pairs) ->
  (forall k, In k (map fst pairs) -> ~ In k (map fst acc)) ->
  fold_left (fun d p => dict_set (fst p) (snd p) d) pairs acc = (acc ++ pairs)%list.
Proof.
  revert acc. induction pairs as [|[k v] pairs IH]; simpl; intros acc Hnd Hfresh.
  - now rewrite app_nil_r.
  - inversion Hnd as [|? ? Hk Hrest]; subst.
    rewrite dict_set_fresh by (apply Hfresh; now left).
    rewrite IH; [now rewrite <- app_assoc | exact Hrest |].
    intros k' Hin. rewrite map_app, in_app_iff. simpl.
    intros [H|[<-|[]]]; [|contradiction].
    apply (Hfresh k'); [now right | exact H].
Qed.

(** A comprehension over pairs with distinct keys builds the dict of those
    pairs, in their order. *)
Lemma dict_from_distinct {V : Type} (pairs : list (string * V)) :
  NoDup (map fst pairs) -> dict_from pairs = pairs.
Proof.
  intros H. unfold dict_from. rewrite dict_from_acc_distinct; auto.
Qed.

Section JsanitizeMore.

Import Utils.

Variable str_of : obj -> string.


Lemma jsanitize_sequence (strict allow_bson : bool) (xs : list obj) :
  jsanitize str_of strict allow_bson (OList xs) =
    (xs' <- comprehension (jsanitize str_of strict allow_bson) xs ;; Ok (OList xs')) /\
  jsanitize str_of strict allow_bson (OTuple xs) =
    (xs' <- comprehension (jsanitize str_of strict allow_bson) xs ;; Ok (OList xs')) /\
  jsanitize str_of strict allow_bson (ONdarray xs) =
    (xs' <- comprehension (jsanitize str_of strict allow_bson) xs ;; Ok (OList xs')).
Proof. repeat split. Qed.

Lemma jsanitize_mapping (strict allow_bson : bool) (kvs : list (obj * obj)) :
  let items :=
    comprehension
      (fun kv : obj * obj =>
         let (k, v) := kv in
         v' <- jsanitize str_of strict allow_bson v ;; Ok (py_str str_of k, v'))
      kvs in
  jsanitize str_of strict allow_bson (ODict kvs) =
    (kvs' <- items ;; Ok (str_dict kvs')) /\
  jsanitize str_of strict allow_bson (OMSONable kvs) =
    (kvs' <- items ;; Ok (str_dict kvs')) /\
  jsanitize str_of strict allow_bson (OBaseModel kvs) =
    (kvs' <- items ;; Ok (str_dict kvs')).
Proof. repeat split. Qed.

Lemma json_safe_nodes (allow_bson : bool) :
  (forall xs, Extra.json_safe allow_bson (OList xs) =
              forallb (Extra.json_safe allow_bson) xs) /\
  (forall kvs, Extra.json_safe allow_bson (ODict kvs) =
               forallb (fun kv => is_str (fst kv) &&
                                  Extra.json_safe allow_bson (snd kv)) kvs
               && Extra.distinct (map Extra.key_of kvs)).
Proof. split; reflexivity. Qed.

Lemma understood_nodes (allow_bson : bool) :
  (forall xs, Extra.understood allow_bson (OList xs) =
              forallb (Extra.understood allow_bson) xs) /\
  (forall xs, Extra.understood allow_bson (OTuple xs) =
              forallb (Extra.understood allow_bson) xs) /\
  (forall xs, Extra.understood allow_bson (ONdarray xs) =
              forallb (Extra.understood allow_bson) xs) /\
  (forall kvs, Extra.understood allow_bson (ODict kvs) =
               forallb (fun kv => Extra.understood allow_bson (snd kv)) kvs) /\
  (forall kvs, Extra.understood allow_bson (OMSONable kvs) =
               forallb (fun kv => Extra.understood allow_bson (snd kv)) kvs) /\
  (forall kvs, Extra.understood allow_bson (OBaseModel kvs) =
               forallb (fun kv => Extra.understood allow_bson (snd kv)) kvs).
Proof. repeat split. Qed.


Variables strict allow_bson : bool.

Lemma each_json_safe (xs ys : list obj) :
  Forall (fun x => forall x',
            enum_free x = true ->
            jsanitize str_of strict allow_bson x = Ok x' ->
            Extra.json_safe allow_bson x' = true) xs ->
  forallb enum_free xs = true ->
  comprehension (jsanitize str_of strict allow_bson) xs = Ok ys ->
  Extra.json_safe allow_bson (OList ys) = true.
Proof.
  intros Hall Hfree Hc. apply comprehension_Ok in Hc. simpl.
  induction Hc as [|x y xs ys Hxy _ IH]; [reflexivity|].
  simpl in *. apply andb_true_iff in Hfree. destruct Hfree as [Hx Hxs].
  inversion Hall as [|? ? Hpx Hpxs]; subst.
  apply andb_true_iff. split; [now apply (Hpx y) | now apply IH].
Qed.

Lemma items_json_safe (kvs : list (obj * obj)) (kvs' : list (string * obj)) :
  Forall (fun kv => forall x',
            enum_free (snd kv) = true ->
            jsanitize str_of strict allow_bson (snd kv) = Ok x' ->
            Extra.json_safe allow_bson x' = true) kvs ->
  forallb (fun kv => enum_free (snd kv)) kvs = true ->
  comprehension
    (fun kv : obj * obj =>
       let (k, v) := kv in
       v' <- jsanitize str_of strict allow_bson v ;; Ok (py_str str_of k, v'))
    kvs = Ok kvs' ->
  Extra.json_safe allow_bson (str_dict kvs') = true.
Proof.
  intros Hall Hfree Hc.
  assert (Hvals : forall kv, In kv kvs' ->
                             Extra.json_safe allow_bson (snd kv) = true).
  { apply comprehension_Ok in Hc.
    induction Hc as [|[k v] [k' v'] kvs kvs' Hxy _ IH]; [intros ? []|].
    simpl in Hfree. apply andb_true_iff in Hfree. destruct Hfree as [Hv Hrest].
    inversion Hall as [|? ? Hpv Hprest]; subst. simpl in Hpv.
    apply bind_Ok in Hxy. destruct Hxy as (w & Hw & [= <- <-]).
    intros kv [<-|Hin]; [now apply (Hpv w) | now apply IH]. }
  unfold str_dict. cbn [Extra.json_safe]. apply andb_true_iff. split.
  - apply forallb_forall. intros kv Hin.
    apply in_map_iff in Hin. destruct Hin as [[k v] [<- Hin]]. simpl.
    apply (Hvals (k, v)). now apply dict_from_In.
  - rewrite map_map. apply distinct_NoDup.
    rewrite (map_ext _ fst) by reflexivity. apply dict_from_NoDup.
Qed.

(** X18.  On an input that holds no enumeration member, what jsanitize
    returns is a JSON-safe tree: [None], booleans, numbers, strings,
    lists, and dicts with distinct string keys -- no tuple, array or
    object is left -- and, with [allow_bson] only, bytes, datetimes and
    object ids. *)
Theorem jsanitize_json_safe (o o' : obj) :
  enum_free o = true ->
  jsanitize str_of strict allow_bson o = Ok o' ->
  Extra.json_safe allow_bson o' = true.
Proof.
  revert o o'. apply (obj_visit_ind (fun o => forall o',
    enum_free o = true -> jsanitize str_of strict allow_bson o = Ok o' ->
    Extra.json_safe allow_bson o' = true)).
  - intros o Hlist Htuple Harray Hdict Hmson Hmodel Hother o' Hfree Hs.
    destruct o as [ | | | | | | | |xs|xs|xs|v|kvs|kvs|kvs|[d|]];
      try (exfalso; eapply Hlist; reflexivity);
      try (exfalso; eapply Htuple; reflexivity);
      try (exfalso; eapply Harray; reflexivity);
      try (exfalso; eapply Hdict; reflexivity);
      try (exfalso; eapply Hmson; reflexivity);
      try (exfalso; eapply Hmodel; reflexivity);
      try (exfalso; eapply Hother; reflexivity);
      try discriminate;
      simpl in Hs;
      try (destruct allow_bson; [injection Hs as <-; reflexivity|]);
      try (destruct strict; simpl in Hs; [discriminate|]);
      injection Hs as <-; reflexivity.
  - intros xs IH o' Hfree Hs. simpl in Hs. apply bind_Ok in Hs.
    destruct Hs as (ys & Hys & [= <-]).
    exact (each_json_safe xs ys IH Hfree Hys).
  - intros xs IH o' Hfree Hs. simpl in Hs. apply bind_Ok in Hs.
    destruct Hs as (ys & Hys & [= <-]).
    exact (each_json_safe xs ys IH Hfree Hys).
  - intros xs IH o' Hfree Hs. simpl in Hs. apply bind_Ok in Hs.
    destruct Hs as (ys & Hys & [= <-]).
    exact (each_json_safe xs ys IH Hfree Hys).
  - intros kvs IH o' Hfree Hs. simpl in Hs. apply bind_Ok in Hs.
    destruct Hs as (ys & Hys & [= <-]).
    exact (items_json_safe kvs ys IH Hfree Hys).
  - intros kvs IH o' Hfree Hs. simpl in Hs. apply bind_Ok in Hs.
    destruct Hs as (ys & Hys & [= <-]).
    exact (items_json_safe kvs ys IH Hfree Hys).
  - intros kvs IH o' Hfree Hs. simpl in Hs. apply bind_Ok in Hs.
    destruct Hs as (ys & Hys & [= <-]).
    exact (items_json_safe kvs ys IH Hfree Hys).
  - intros d IH o' Hfree Hs. simpl in Hs, Hfree.
    destruct strict; simpl in Hs; [now apply IH | injection Hs as <-; reflexivity].
Qed.

(** X19.  jsanitize returns a JSON-safe tree as it is, in both modes; with
    X18, sanitizing twice gives what sanitizing once gives. *)
Theorem jsanitize_fixed_point (o : obj) :
  Extra.json_safe allow_bson o = true ->
  jsanitize str_of strict allow_bson o = Ok o.
Proof.
  revert o. apply (obj_visit_ind (fun o =>
    Extra.json_safe allow_bson o = true ->
    jsanitize str_of strict allow_bson o = Ok o)).
  - intros o Hlist Htuple Harray Hdict Hmson Hmodel Hother Hsafe.
    destruct o as [ | | | | | | | |xs|xs|xs|v|kvs|kvs|kvs|[d|]];
      try (exfalso; eapply Hlist; reflexivity);
      try (exfalso; eapply Htuple; reflexivity);
      try (exfalso; eapply Harray; reflexivity);
      try (exfalso; eapply Hdict; reflexivity);
      try (exfalso; eapply Hmson; reflexivity);
      try (exfalso; eapply Hmodel; reflexivity);
      try (exfalso; eapply Hother; reflexivity);
      try discriminate; simpl in *; try reflexivity;
      now rewrite Hsafe.
  - intros xs IH Hsafe.
    rewrite (proj1 (json_safe_nodes allow_bson)) in Hsafe.
    rewrite (proj1 (jsanitize_sequence strict allow_bson xs)).
    rewrite (comprehension_map _ (fun x => x) xs).
    + cbn [bind]. now rewrite map_id.
    + rewrite forallb_forall in Hsafe. rewrite Forall_forall in IH |- *.
      intros x Hin. apply (IH x Hin). now apply Hsafe.
  - discriminate.
  - discriminate.
  - intros kvs IH Hsafe.
    rewrite (proj2 (json_safe_nodes allow_bson)) in Hsafe.
    apply andb_true_iff in Hsafe. destruct Hsafe as [Hall Hdist].
    rewrite forallb_forall in Hall. rewrite Forall_forall in IH.
    rewrite (proj1 (jsanitize_mapping strict allow_bson kvs)).
    rewrite (comprehension_map _ (fun kv => (Extra.key_of kv, snd kv)) kvs).
    + cbn [bind]. unfold str_dict. rewrite dict_from_distinct.
      * f_equal. f_equal. rewrite map_map.
        rewrite <- (map_id kvs) at 2. apply map_ext_in.
        intros [k v] Hin. specialize (Hall _ Hin). simpl in Hall.
        apply andb_true_iff in Hall. destruct Hall as [Hk _].
        destruct k; try discriminate. reflexivity.
      * rewrite map_map. simpl. now apply distinct_NoDup.
    + apply Forall_forall. intros [k v] Hin.
      pose proof (Hall _ Hin) as Hkv. simpl in Hkv.
      apply andb_true_iff in Hkv. destruct Hkv as [Hk Hv].
      pose proof (IH _ Hin Hv) as Hfix. simpl in Hfix. rewrite Hfix.
      destruct k; try discriminate. reflexivity.
  - discriminate.
  - discriminate.
  - discriminate.
Qed.

(** X20.  The two modes differ only on what jsanitize does not
    understand: on an input in which every visited object is of a kind it
    names, strict and lenient mode give the same result. *)
Theorem jsanitize_strict_lenient (o : obj) :
  Extra.understood allow_bson o = true ->
  jsanitize str_of true allow_bson o = jsanitize str_of false allow_bson o.
Proof.
  destruct (understood_nodes allow_bson) as (Ul & Ut & Ua & Ud & Um & Ub).
  revert o. apply (obj_visit_ind (fun o =>
    Extra.understood allow_bson o = true ->
    jsanitize str_of true allow_bson o = jsanitize str_of false allow_bson o)).
  - intros o Hlist Htuple Harray Hdict Hmson Hmodel Hother Hu.
    destruct o as [ | | | | | | | |xs|xs|xs|v|kvs|kvs|kvs|[d|]];
      try (exfalso; eapply Hlist; reflexivity);
      try (exfalso; eapply Htuple; reflexivity);
      try (exfalso; eapply Harray; reflexivity);
      try (exfalso; eapply Hdict; reflexivity);
      try (exfalso; eapply Hmson; reflexivity);
      try (exfalso; eapply Hmodel; reflexivity);
      try (exfalso; eapply Hother; reflexivity);
      try discriminate; simpl in *; try reflexivity;
      now rewrite Hu.
  - intros xs IH Hu. rewrite Ul in Hu.
    rewrite !(proj1 (jsanitize_sequence _ allow_bson xs)).
    rewrite (comprehension_ext _ (jsanitize str_of false allow_bson) xs);
      [reflexivity|].
    rewrite forallb_forall in Hu. rewrite Forall_forall in IH |- *.
    intros x Hin. apply (IH x Hin). now apply Hu.
  - intros xs IH Hu. rewrite Ut in Hu.
    rewrite !(proj1 (proj2 (jsanitize_sequence _ allow_bson xs))).
    rewrite (comprehension_ext _ (jsanitize str_of false allow_bson) xs);
      [reflexivity|].
    rewrite forallb_forall in Hu. rewrite Forall_forall in IH |- *.
    intros x Hin. apply (IH x Hin). now apply Hu.
  - intros xs IH Hu. rewrite Ua in Hu.
    rewrite !(proj2 (proj2 (jsanitize_sequence _ allow_bson xs))).
    rewrite (comprehension_ext _ (jsanitize str_of false allow_bson) xs);
      [reflexivity|].
    rewrite forallb_forall in Hu. rewrite Forall_forall in IH |- *.
    intros x Hin. apply (IH x Hin). now apply Hu.
  - intros kvs IH Hu. rewrite Ud in Hu.
    rewrite !(proj1 (jsanitize_mapping _ allow_bson kvs)).
    rewrite (comprehension_ext _
               (fun kv : obj * obj =>
                  let (k, v) := kv in
                  v' <- jsanitize str_of false allow_bson v ;;
                  Ok (py_str str_of k, v')) kvs); [reflexivity|].
    rewrite forallb_forall in Hu. rewrite Forall_forall in IH |- *.
    intros [k v] Hin. pose proof (IH _ Hin (Hu _ Hin)) as Heq. simpl in Heq.
    now rewrite Heq.
  - intros kvs IH Hu. rewrite Um in Hu.
    rewrite !(proj1 (proj2 (jsanitize_mapping _ allow_bson kvs))).
    rewrite (comprehension_ext _
               (fun kv : obj * obj =>
                  let (k, v) := kv in
                  v' <- jsanitize str_of false allow_bson v ;;
                  Ok (py_str str_of k, v')) kvs); [reflexivity|].
    rewrite forallb_forall in Hu. rewrite Forall_forall in IH |- *.
    intros [k v] Hin. pose proof (IH _ Hin (Hu _ Hin)) as Heq. simpl in Heq.
    now rewrite Heq.
  - intros kvs IH Hu. rewrite Ub in Hu.
    rewrite !(proj2 (proj2 (jsanitize_mapping _ allow_bson kvs))).
    rewrite (comprehension_ext _
               (fun kv : obj * obj =>
                  let (k, v) := kv in
                  v' <- jsanitize str_of false allow_bson v ;;
                  Ok (py_str str_of k, v')) kvs); [reflexivity|].
    rewrite forallb_forall in Hu. rewrite Forall_forall in IH |- *.
    intros [k v] Hin. pose proof (IH _ Hin (Hu _ Hin)) as Heq. simpl in Heq.
    now rewrite Heq.
  - discriminate.
Qed.

End JsanitizeMore.

Lemma jsanitize_json_safe_witness :
  Extra.json_safe false
    (Utils.ODict
       [ (Utils.OStr "1", Utils.ODict [(Utils.OStr "@class", Utils.OStr "S")]);
         (Utils.OStr "t", Utils.OStr "?") ]) = true.
Proof.
  apply (jsanitize_json_safe Extra.sample_str_of false false Extra.nested_object);
    reflexivity.
Defined.

Lemma jsanitize_fixed_point_witness :
  Utils.jsanitize Extra.sample_str_of true false Extra.safe_tree =
  Ok Extra.safe_tree.
Proof.
  apply (jsanitize_fixed_point Extra.sample_str_of true false Extra.safe_tree).
  reflexivity.
Defined.

Lemma jsanitize_strict_lenient_witness :
  Utils.jsanitize Extra.sample_str_of true true Extra.nested_object =
  Utils.jsanitize Extra.sample_str_of false true Extra.nested_object.
Proof.
  apply (jsanitize_strict_lenient Extra.sample_str_of true Extra.nested_object).
  reflexivity.
Defined.

(* ===================================================================== *)
(** ** Further properties: group_structures *)
(* ===================================================================== *)

Section GroupingLemmas.

Variable Structure : Type.
Variable key : Structure -> Z.

Lemma insert_sorted_perm (x : Structure) (l : list Structure) :
  Permutation ((Grouping.insert_sorted Structure key) x l) (x :: l).
Proof.
  induction l as [|y l IH]; simpl; [reflexivity|].
  destruct (key x <=? key y)%Z; [reflexivity|].
  rewrite IH. apply perm_swap.
Qed.

Lemma sorted_perm (l : list Structure) : Permutation ((Grouping.sorted Structure key) l) l.
Proof.
  induction l as [|x l IH]; simpl; [reflexivity|].
  rewrite insert_sorted_perm. now constructor.
Qed.

Lemma insert_sorted_ordered (x : Structure) (l : list Structure) :
  StronglySorted (fun a b : Structure => (key a <= key b)%Z) l -> StronglySorted (fun a b : Structure => (key a <= key b)%Z) ((Grouping.insert_sorted Structure key) x l).
Proof.
  induction 1 as [|y l Hl IH Hy]; simpl.
  - constructor; constructor.
  - destruct (key x <=? key y)%Z eqn:Hxy.
    + apply Z.leb_le in Hxy. constructor; [now constructor|].
      constructor; [exact Hxy|].
      eapply Forall_impl; [|exact Hy]. intros z Hz. simpl in *. lia.
    + apply Z.leb_gt in Hxy. constructor; [exact IH|].
      apply Forall_forall. intros z Hz.
      apply (Permutation_in _ (insert_sorted_perm x l)) in Hz.
      destruct Hz as [<-|Hz]; [lia|].
      rewrite Forall_forall in Hy. now apply Hy.
Qed.

Lemma sorted_ordered (l : list Structure) : StronglySorted (fun a b : Structure => (key a <= key b)%Z) ((Grouping.sorted Structure key) l).
Proof.
  induction l as [|x l IH]; simpl; [constructor | now apply insert_sorted_ordered].
Qed.

(** The sort is stable: the structures of one key keep their order. *)
Lemma insert_sorted_filter (k : Z) (x : Structure) (l : list Structure) :
  filter (fun s : Structure => (key s =? k)%Z) ((Grouping.insert_sorted Structure key) x l) = filter (fun s : Structure => (key s =? k)%Z) (x :: l).
Proof.
  induction l as [|y l IH]; [reflexivity|].
  cbn [Grouping.insert_sorted].
  destruct (key x <=? key y)%Z eqn:Hxy; [reflexivity|].
  apply Z.leb_gt in Hxy. simpl in *. rewrite IH.
  destruct (key x =? k)%Z eqn:Hx; [|reflexivity].
  apply Z.eqb_eq in Hx.
  destruct (key y =? k)%Z eqn:Hy; [|reflexivity].
  apply Z.eqb_eq in Hy. lia.
Qed.

Lemma sorted_filter (k : Z) (l : list Structure) :
  filter (fun s : Structure => (key s =? k)%Z) ((Grouping.sorted Structure key) l) = filter (fun s : Structure => (key s =? k)%Z) l.
Proof.
  induction l as [|x l IH]; [reflexivity|].
  cbn [Grouping.sorted]. rewrite insert_sorted_filter. simpl. now rewrite IH.
Qed.

Lemma groupby_concat (l : list Structure) :
  List.concat (map snd ((Grouping.groupby Structure key) l)) = l.
Proof.
  induction l as [|x l IH]; [reflexivity|]. simpl.
  destruct ((Grouping.groupby Structure key) l) as [|[k g] gs]; simpl in *.
  - now rewrite <- IH.
  - destruct (key x =? k)%Z; simpl; now rewrite <- IH.
Qed.

Lemma groupby_cons (x : Structure) (l : list Structure) :
  (Grouping.groupby Structure key) (x :: l) =
  match (Grouping.groupby Structure key) l with
  | (k, g) :: gs =>
      if (key x =? k)%Z then (k, x :: g) :: gs else (key x, [x]) :: (k, g) :: gs
  | [] => [(key x, [x])]
  end.
Proof. reflexivity. Qed.

Lemma groupby_head (x : Structure) (l : list Structure) :
  exists g gs, (Grouping.groupby Structure key) (x :: l) = (key x, x :: g) :: gs.
Proof.
  simpl. destruct ((Grouping.groupby Structure key) l) as [|[k g] gs]; [now exists [], []|].
  destruct (key x =? k)%Z eqn:Hk.
  - apply Z.eqb_eq in Hk. rewrite <- Hk. now exists g, gs.
  - now exists [], ((k, g) :: gs).
Qed.

(** On a list in the order of its keys, (Grouping.groupby Structure key) makes one group per key:
    the keys of the groups increase strictly, and a group holds all the
    elements of its key, in their order. *)
Lemma filter_head (f : Structure -> bool) (x : Structure) (l : list Structure) :
  filter f (x :: l) = if f x then x :: filter f l else filter f l.
Proof. reflexivity. Qed.

Lemma groupby_ordered (l : list Structure) :
  StronglySorted (fun a b : Structure => (key a <= key b)%Z) l ->
  StronglySorted Z.lt (map fst ((Grouping.groupby Structure key) l)) /\
  forall k g, In (k, g) ((Grouping.groupby Structure key) l) ->
              g = filter (fun s : Structure => (key s =? k)%Z) l /\ g <> [].
Proof.
  induction 1 as [|x l Hl [IHs IHg] Hx].
  - split; [constructor | intros ? ? []].
  - rewrite Forall_forall in Hx.
    destruct l as [|y l'].
    + simpl. split; [repeat constructor|].
      intros k g [[= <- <-]|[]]. rewrite Z.eqb_refl. split; [reflexivity | discriminate].
    + destruct (groupby_head y l') as (g0 & gs & Hgb).
      assert (Hxy : (key x <= key y)%Z) by (apply Hx; now left).
      assert (Hrest : forall k g, In (k, g) gs -> (key y < k)%Z).
      { intros k g Hin. rewrite Hgb in IHs. simpl in IHs.
        inversion IHs as [|? ? _ Hall]; subst.
        rewrite Forall_forall in Hall. apply Hall.
        now apply (in_map fst) in Hin. }
      rewrite (groupby_cons x (y :: l')). rewrite Hgb in *.
      destruct (key x =? key y)%Z eqn:Hk.
      * apply Z.eqb_eq in Hk. split.
        -- exact IHs.
        -- intros k g [[= <- <-]|Hin].
           ++ destruct (IHg (key y) (y :: g0) (or_introl eq_refl)) as [Hg _].
              split; [|discriminate].
              rewrite filter_head. rewrite Hk, Z.eqb_refl. f_equal. exact Hg.
           ++ destruct (IHg k g (or_intror Hin)) as [Hg Hne].
              split; [|exact Hne]. rewrite filter_head.
              pose proof (Hrest k g Hin).
              destruct (key x =? k)%Z eqn:E; [apply Z.eqb_eq in E; lia | exact Hg].
      * apply Z.eqb_neq in Hk. split.
        -- simpl. constructor; [exact IHs|].
           constructor; [lia|]. apply Forall_forall. intros k Hin.
           apply in_map_iff in Hin. destruct Hin as [[k' g'] [<- Hin]].
           pose proof (Hrest k' g' Hin). simpl. lia.
        -- intros k g [[= <- <-]|Hin].
           ++ split; [|discriminate]. rewrite filter_head. rewrite Z.eqb_refl.
              f_equal. symmetry.
              assert (Hnone : forall z, In z (y :: l') -> (key z =? key x)%Z = false).
              { intros z Hz. apply Z.eqb_neq.
                inversion Hl as [|? ? _ Hy]; subst.
                rewrite Forall_forall in Hy.
                destruct Hz as [<-|Hz]; [lia|]. specialize (Hy z Hz). lia. }
              clear -Hnone. induction (y :: l') as [|z zs IH]; [reflexivity|].
              simpl. rewrite (Hnone z (or_introl eq_refl)). apply IH.
              intros z' Hz'. apply Hnone. now right.
           ++ destruct (IHg k g Hin) as [Hg Hne].
              split; [|exact Hne]. rewrite filter_head.
              assert ((key y <= k)%Z).
              { destruct Hin as [[= <- <-]|Hin]; [lia|].
                pose proof (Hrest k g Hin). lia. }
              destruct (key x =? k)%Z eqn:E; [apply Z.eqb_eq in E; lia | exact Hg].
Qed.

End GroupingLemmas.

Section GroupStructures.

Variable Structure : Type.
Variable Tolerance : Type.
Variable get_space_group_info : Structure -> Tolerance -> result (string * Z).
Variable StructureMatcher :
  Tolerance -> Tolerance -> Tolerance -> list Structure -> list (list Structure).

Lemma flat_map_concat_perm (sm : list Structure -> list (list Structure))
    (pregroups : list (Z * list Structure)) :
  (forall l, Permutation (List.concat (sm l)) l) ->
  Permutation
    (List.concat (flat_map (fun pregroup => sm (snd pregroup)) pregroups))
    (List.concat (map snd pregroups)).
Proof.
  intros Hsm. induction pregroups as [|[k g] pregroups IH]; simpl; [reflexivity|].
  rewrite concat_app. now apply Permutation_app.
Qed.

(** X21.  When the structure matcher partitions the list it is given,
    group_structures partitions its input: the groups it yields hold every
    structure of the input exactly once. *)
Theorem group_structures_partition (structures : list Structure)
    (ltol stol angle_tol symprec : Tolerance) :
  (forall l, Permutation (List.concat (StructureMatcher ltol stol angle_tol l)) l) ->
  Permutation
    (List.concat
       (Grouping.group_structures Structure Tolerance get_space_group_info
          StructureMatcher structures ltol stol angle_tol symprec))
    structures.
Proof.
  intros Hsm. unfold Grouping.group_structures.
  rewrite (flat_map_concat_perm _ _ Hsm). unfold Grouping.pregroups.
  rewrite groupby_concat. apply sorted_perm.
Qed.

(** X22.  The structures reach the matcher in one pregroup per space-group
    number (-1 for the structures whose symmetry analysis raises), in the
    increasing order of the numbers; a pregroup holds all the structures
    of its number, in the order of the input. *)
Theorem pregroups_by_space_group (structures : list Structure)
    (symprec : Tolerance) :
  StronglySorted Z.lt
    (map fst (Grouping.pregroups Structure Tolerance get_space_group_info
                structures symprec)) /\
  forall k g,
    In (k, g) (Grouping.pregroups Structure Tolerance get_space_group_info
                 structures symprec) ->
    g = filter
          (fun s => (Grouping.get_sg Structure Tolerance get_space_group_info
                       s symprec =? k)%Z)
          structures /\
    g <> [].
Proof.
  unfold Grouping.pregroups.
  destruct (groupby_ordered Structure
              (fun s => Grouping.get_sg Structure Tolerance get_space_group_info
                          s symprec)
              _ (sorted_ordered Structure _ structures)) as [Hs Hg].
  split; [exact Hs|]. intros k g Hin.
  destruct (Hg k g Hin) as [-> Hne]. split; [|exact Hne].
  apply (sorted_filter Structure
           (fun s => Grouping.get_sg Structure Tolerance get_space_group_info
                       s symprec)).
Qed.

(** X23.  When the groups of the structure matcher hold only structures
    of the list it is given, the structures of a group that
    group_structures yields all have the same space-group number. *)
Theorem group_structures_one_space_group (structures : list Structure)
    (ltol stol angle_tol symprec : Tolerance)
    (g : list Structure) (x y : Structure) :
  (forall l g' z,
     In g' (StructureMatcher ltol stol angle_tol l) -> In z g' -> In z l) ->
  In g (Grouping.group_structures Structure Tolerance get_space_group_info
          StructureMatcher structures ltol stol angle_tol symprec) ->
  In x g -> In y g ->
  Grouping.get_sg Structure Tolerance get_space_group_info x symprec =
  Grouping.get_sg Structure Tolerance get_space_group_info y symprec.
Proof.
  intros Hsm Hg Hx Hy. unfold Grouping.group_structures in Hg.
  apply in_flat_map in Hg. destruct Hg as ([k pre] & Hpre & Hg). simpl in Hg.
  destruct (pregroups_by_space_group structures symprec) as [_ Hgroups].
  destruct (Hgroups k pre Hpre) as [-> _].
  apply (Hsm _ _ x Hg) in Hx. apply (Hsm _ _ y Hg) in Hy.
  apply filter_In in Hx, Hy. destruct Hx as [_ Hx], Hy as [_ Hy].
  apply Z.eqb_eq in Hx, Hy. congruence.
Qed.

End GroupStructures.

Lemma group_structures_partition_witness :
  Permutation
    (List.concat
       (Grouping.group_structures nat unit Extra.sample_space_group
          Extra.sample_matcher Extra.sample_structures tt tt tt tt))
    Extra.sample_structures.
Proof.
  apply (group_structures_partition nat unit Extra.sample_space_group
           Extra.sample_matcher Extra.sample_structures tt tt tt tt).
  intros l. simpl. rewrite app_nil_r. apply Permutation_refl.
Defined.

Lemma group_structures_one_space_group_witness :
  Grouping.get_sg nat unit Extra.sample_space_group 4%nat tt =
  Grouping.get_sg nat unit Extra.sample_space_group 7%nat tt.
Proof.
  apply (group_structures_one_space_group nat unit Extra.sample_space_group
           Extra.sample_matcher Extra.sample_structures tt tt tt tt
           [4; 1; 7]%nat 4%nat 7%nat).
  - intros l g' z [<-|[]] Hz. exact Hz.
  - vm_compute. tauto.
  - simpl. tauto.
  - simpl. tauto.
Defined.

(* ===================================================================== *)
(** ** Further properties: the VASP calc type and dict keys *)
(* ===================================================================== *)

(** X24.  Whenever run_type and task_type both return, the VASP calc_type
    raises [ValueError]: the string it builds from the two members is no
    value of [CalcType]. *)
Theorem vasp_calc_type_value_error (table : rule_table)
    (inputs parameters : dict value) (rt tt : member) :
  Vasp.run_type table parameters = Ok rt ->
  Vasp.task_type inputs = Ok tt ->
  Vasp.calc_type table inputs parameters = Raise ValueError.
Proof.
  intros Hrt Htt.
  destruct (Vasp.calc_type table inputs parameters) as [m|e] eqn:Hc.
  - exfalso. exact (vasp_calc_type_never_returns table inputs parameters m Hc).
  - unfold Vasp.calc_type in Hc. rewrite Hrt, Htt in Hc. cbn [bind] in Hc.
    now rewrite (enum_call_Raise _ _ _ Hc).
Qed.

Lemma vasp_calc_type_value_error_witness :
  Vasp.calc_type Sample.vasp_table Sample.static_inputs Sample.hybrid_parameters =
  Raise ValueError.
Proof.
  apply (vasp_calc_type_value_error Sample.vasp_table Sample.static_inputs
           Sample.hybrid_parameters
           (Member "RunType" "PBE0" "PBE0")
           (Member "TaskType" "Static" "Static")); reflexivity.
Defined.

(** X25.  When several keys of a dict have the same string form, jsanitize
    keeps one item for them, with the sanitized value of the last: the
    result has the item [(s, v)] exactly when [v] is the sanitized value of
    the last item of the input whose key has the string form [s]. *)
Theorem jsanitize_dict_last_wins (str_of : Utils.obj -> string)
    (strict allow_bson : bool) (kvs out : list (Utils.obj * Utils.obj)) :
  Utils.jsanitize str_of strict allow_bson (Utils.ODict kvs) = Ok (Utils.ODict out) ->
  exists pairs,
    comprehension
      (fun kv : Utils.obj * Utils.obj =>
         let (k, v) := kv in
         v' <- Utils.jsanitize str_of strict allow_bson v ;;
         Ok (Utils.py_str str_of k, v'))
      kvs = Ok pairs /\
    forall s v, In (Utils.OStr s, v) out <-> dict_get s (rev pairs) = Some v.
Proof.
  intros H. rewrite (proj1 (jsanitize_mapping str_of strict allow_bson kvs)) in H.
  apply bind_Ok in H. destruct H as (pairs & Hpairs & H).
  exists pairs. split; [exact Hpairs|].
  unfold Utils.str_dict in H. injection H as <-.
  intros s v. rewrite <- dict_get_from. split.
  - intros Hin. apply in_map_iff in Hin. destruct Hin as [[s' v'] [[= <- <-] Hin]].
    apply In_dict_get; [apply dict_from_NoDup | exact Hin].
  - intros Hget. apply dict_get_In in Hget.
    apply in_map_iff. now exists (s, v).
Qed.

Lemma jsanitize_dict_last_wins_witness :
  exists pairs,
    comprehension
      (fun kv : Utils.obj * Utils.obj =>
         let (k, v) := kv in
         v' <- Utils.jsanitize Extra.sample_str_of false false v ;;
         Ok (Utils.py_str Extra.sample_str_of k, v'))
      [ (Utils.OInt 1, Utils.OTuple [Utils.ONone; Utils.OFloat (Finite 1 (-1))]);
        (Utils.OStr "1", Utils.OMSONable [(Utils.OStr "@class", Utils.OStr "S")]);
        (Utils.OStr "t", Utils.ODatetime "2021-01-01") ] = Ok pairs /\
    forall s v,
      In (Utils.OStr s, v)
        [ (Utils.OStr "1", Utils.ODict [(Utils.OStr "@class", Utils.OStr "S")]);
          (Utils.OStr "t", Utils.OStr "?") ] <->
      dict_get s (rev pairs) = Some v.
Proof.
  apply (jsanitize_dict_last_wins Extra.sample_str_of false false).
  reflexivity.
Defined.
